(** * SearchBuilder condition objects of starlette-admin

    A shallow embedding of
    [starlette_admin/statics/js/search_builder_conditions.js] and the
    properties of its helpers and condition descriptors.

    The file is laid out in the order of the program: the fragment of
    JavaScript the source runs on ([JS]), the objects the widget hands to
    it ([Context]), the DOM and jQuery operations it calls ([DOM]), the
    events of the table and of the user ([Events]), the source functions
    under their own names, and then the theorems. *)

From Stdlib Require Import ZArith NArith List String Ascii Bool Lia.
From Stdlib Require Import Permutation Sorted DecimalString.
From Stdlib Require OrderedTypeEx.
Import ListNotations.

Set Warnings "-register-all".

Local Open Scope string_scope.
Local Open Scope list_scope.

(* ===================================================================== *)
(** * The JavaScript fragment *)
(* ===================================================================== *)

Module JS.

(** Primitive values.  A Number is carried by its mathematical value and
    ranges over the integers (the safe integers are meant: NaN, fractions
    and the rounding of binary64 are outside the fragment).  A string is a
    sequence of code units below 256. *)
Inductive prim : Type :=
| VUndefined
| VNull
| VBool (b : bool)
| VNum (n : Z)
| VStr (s : string).

(** Values: primitives and arrays.  Objects other than arrays have their
    own record types below ([FieldConfig], [criteria], [descriptor]). *)
Inductive value : Type :=
| VPrim (p : prim)
| VArr (items : list value).

Coercion VPrim : prim >-> value.

(** Abrupt completions.  The only exception the source can raise is the
    TypeError of the language itself. *)
Inductive exn : Type := TypeError.

Inductive result (A : Type) : Type :=
| Ok (a : A)
| Throw (e : exn).

Arguments Ok {A} a.
Arguments Throw {A} e.

Definition bind {A B : Type} (m : result A) (k : A -> result B) : result B :=
  match m with
  | Ok a => k a
  | Throw e => Throw e
  end.

Notation "x <- m ;; k" := (bind m (fun x => k))
  (at level 61, m at next level, right associativity).

(** ** Conversions *)

(** Number::toString, radix 10, on integers. *)
Definition NumberToString (n : Z) : string :=
  NilZero.string_of_int (Z.to_int n).

Fixpoint join (sep : string) (parts : list string) : string :=
  match parts with
  | [] => ""
  | [p] => p
  | p :: rest => p ++ sep ++ join sep rest
  end.

(** ToString.  An array converts through Array.prototype.join, which
    writes undefined and null elements as the empty string. *)
Fixpoint ToString (v : value) : string :=
  match v with
  | VPrim VUndefined => "undefined"
  | VPrim VNull => "null"
  | VPrim (VBool true) => "true"
  | VPrim (VBool false) => "false"
  | VPrim (VNum n) => NumberToString n
  | VPrim (VStr s) => s
  | VArr items =>
      join "," (map (fun x => match x with
                              | VPrim VUndefined | VPrim VNull => ""
                              | _ => ToString x
                              end) items)
  end.

(** *** StringToNumber

    The StringNumericLiteral grammar: optional white space around an
    optionally signed decimal literal (with fraction and exponent), the
    word Infinity, or an unsigned binary, octal or hexadecimal integer. *)

Inductive number : Type :=
| NaN
| Infinite (negative : bool)
| Finite (mantissa : Z) (exp10 : Z).   (* mantissa * 10 ^ exp10 *)

Definition is_white_space (c : ascii) : bool :=
  match N_of_ascii c with
  | 9%N | 10%N | 11%N | 12%N | 13%N | 32%N | 160%N => true
  | _ => false
  end.

Fixpoint skip_white_space (cs : list ascii) : list ascii :=
  match cs with
  | c :: rest => if is_white_space c then skip_white_space rest else cs
  | [] => []
  end.

Definition trim (cs : list ascii) : list ascii :=
  rev (skip_white_space (rev (skip_white_space cs))).

Definition digit_value (radix : N) (c : ascii) : option N :=
  let n := N_of_ascii c in
  let d := if (48 <=? n)%N && (n <=? 57)%N then Some (n - 48)%N
           else if (97 <=? n)%N && (n <=? 122)%N then Some (n - 87)%N
           else if (65 <=? n)%N && (n <=? 90)%N then Some (n - 55)%N
           else None in
  match d with
  | Some d => if (d <? radix)%N then Some d else None
  | None => None
  end.

(** Reads the longest run of digits: their value, their count and what
    follows. *)
Fixpoint take_digits (radix : N) (cs : list ascii) (acc : N) (count : nat)
  : N * nat * list ascii :=
  match cs with
  | c :: rest =>
      match digit_value radix c with
      | Some d => take_digits radix rest (acc * radix + d)%N (S count)
      | None => (acc, count, cs)
      end
  | [] => (acc, count, [])
  end.

Definition is_char (c : ascii) (lower upper : string) : bool :=
  (String.eqb (String c "") lower || String.eqb (String c "") upper)%bool.

(** ExponentPart, when present: the signed exponent and what follows. *)
Definition exponent_part (cs : list ascii) : option (Z * list ascii) :=
  match cs with
  | c :: rest =>
      if is_char c "e" "E" then
        let '(neg, digits) :=
          match rest with
          | s :: rest' =>
              if is_char s "+" "+" then (false, rest')
              else if is_char s "-" "-" then (true, rest')
              else (false, rest)
          | [] => (false, rest)
          end in
        match take_digits 10 digits 0 0 with
        | (_, O, _) => None
        | (e, _, after) =>
            Some (if neg then (- Z.of_N e)%Z else Z.of_N e, after)
        end
      else None
  | [] => None
  end.

(** StrUnsignedDecimalLiteral. *)
Definition unsigned_decimal (cs : list ascii) : number :=
  if String.eqb (string_of_list_ascii cs) "Infinity" then Infinite false
  else
    let '(ip, ni, after_int) := take_digits 10 cs 0 0 in
    let '(fp, nf, after_frac) :=
      match after_int with
      | c :: rest =>
          if is_char c "." "." then take_digits 10 rest 0 0
          else (0%N, O, after_int)
      | [] => (0%N, O, after_int)
      end in
    match (ni + nf)%nat with
    | O => NaN
    | _ =>
        let m := (Z.of_N ip * 10 ^ Z.of_nat nf + Z.of_N fp)%Z in
        match after_frac with
        | [] => Finite m (- Z.of_nat nf)
        | _ =>
            match exponent_part after_frac with
            | Some (e, []) => Finite m (e - Z.of_nat nf)
            | _ => NaN
            end
        end
    end.

Definition negate (x : number) : number :=
  match x with
  | NaN => NaN
  | Infinite neg => Infinite (negb neg)
  | Finite m e => Finite (- m) e
  end.

(** NonDecimalIntegerLiteral: 0b, 0o, 0x in either case, then digits. *)
Definition non_decimal (cs : list ascii) : option number :=
  match cs with
  | z :: p :: digits =>
      if is_char z "0" "0" then
        let radix :=
          if is_char p "b" "B" then Some 2%N
          else if is_char p "o" "O" then Some 8%N
          else if is_char p "x" "X" then Some 16%N
          else None in
        match radix with
        | Some r =>
            match take_digits r digits 0 0 with
            | (_, O, _) => Some NaN
            | (n, _, []) => Some (Finite (Z.of_N n) 0)
            | _ => Some NaN
            end
        | None => None
        end
      else None
  | _ => None
  end.

Definition StringToNumber (s : string) : number :=
  match trim (list_ascii_of_string s) with
  | [] => Finite 0 0
  | (c :: rest) as cs =>
      match non_decimal cs with
      | Some x => x
      | None =>
          if is_char c "+" "+" then unsigned_decimal rest
          else if is_char c "-" "-" then negate (unsigned_decimal rest)
          else unsigned_decimal cs
      end
  end.

(** Number::equal between a converted string and an integer Number. *)
Definition number_is (x : number) (n : Z) : bool :=
  match x with
  | Finite m e =>
      if (0 <=? e)%Z then (m * 10 ^ e =? n)%Z
      else (m =? n * 10 ^ (- e))%Z
  | _ => false
  end.

Definition BooleanToNumber (b : bool) : Z := if b then 1%Z else 0%Z.

(** ** The [==] operator (IsLooselyEqual) on primitives *)
Definition loose_eq (x y : prim) : bool :=
  match x, y with
  | VUndefined, VUndefined | VUndefined, VNull
  | VNull, VUndefined | VNull, VNull => true
  | VNum a, VNum b => (a =? b)%Z
  | VStr a, VStr b => String.eqb a b
  | VBool a, VBool b => Bool.eqb a b
  | VNum a, VStr s | VStr s, VNum a => number_is (StringToNumber s) a
  | VBool b, VNum a | VNum a, VBool b => (BooleanToNumber b =? a)%Z
  | VBool b, VStr s | VStr s, VBool b =>
      number_is (StringToNumber s) (BooleanToNumber b)
  | _, _ => false
  end.

(** The [===] operator on primitives. *)
Definition strict_eq (x y : prim) : bool :=
  match x, y with
  | VUndefined, VUndefined | VNull, VNull => true
  | VNum a, VNum b => (a =? b)%Z
  | VStr a, VStr b => String.eqb a b
  | VBool a, VBool b => Bool.eqb a b
  | _, _ => false
  end.

(** ** Relational comparison with a Number *)

Definition ToNumber (v : value) : number :=
  match v with
  | VPrim VUndefined => NaN
  | VPrim VNull => Finite 0 0
  | VPrim (VBool b) => Finite (BooleanToNumber b) 0
  | VPrim (VNum n) => Finite n 0
  | VPrim (VStr s) => StringToNumber s
  | VArr _ => StringToNumber (ToString v)
  end.

Definition number_gt (x : number) (n : Z) : bool :=
  match x with
  | NaN => false
  | Infinite negative => negb negative
  | Finite m e =>
      if (0 <=? e)%Z then (n <? m * 10 ^ e)%Z
      else (n * 10 ^ (- e) <? m)%Z
  end.

(** [v > n] for an integer literal [n]. *)
Definition greater_than (v : value) (n : Z) : bool := number_gt (ToNumber v) n.

(** ** Property reads *)

(** [v.length]. *)
Definition length_of (v : value) : result value :=
  match v with
  | VPrim VUndefined | VPrim VNull => Throw TypeError
  | VPrim (VStr s) => Ok (VPrim (VNum (Z.of_nat (String.length s))))
  | VPrim (VBool _) | VPrim (VNum _) => Ok (VPrim VUndefined)
  | VArr items => Ok (VPrim (VNum (Z.of_nat (List.length items))))
  end.

Definition char_string (c : ascii) : string := String c "".

(** [v[i]]. *)
Definition get_index (v : value) (i : nat) : result value :=
  match v with
  | VPrim VUndefined | VPrim VNull => Throw TypeError
  | VPrim (VStr s) =>
      Ok (match String.get i s with
          | Some c => VPrim (VStr (char_string c))
          | None => VPrim VUndefined
          end)
  | VPrim (VBool _) | VPrim (VNum _) => Ok (VPrim VUndefined)
  | VArr items =>
      Ok (match nth_error items i with
          | Some x => x
          | None => VPrim VUndefined
          end)
  end.

(** ** Arrays *)

(** [Array.from(v)]: undefined and null have no iterator to read, which
    is a TypeError; an array is copied, a string gives its characters, a
    boolean or a number the empty array. *)
Definition Array_from (v : value) : result (list value) :=
  match v with
  | VPrim VUndefined | VPrim VNull => Throw TypeError
  | VPrim (VStr s) =>
      Ok (map (fun c => VPrim (VStr (char_string c))) (list_ascii_of_string s))
  | VPrim (VBool _) | VPrim (VNum _) => Ok []
  | VArr items => Ok items
  end.

(** The comparison of [Array.prototype.sort] without a comparator:
    undefined goes last, everything else is compared by the code units of
    its string form. *)
Definition SortCompare (x y : value) : comparison :=
  match x, y with
  | VPrim VUndefined, VPrim VUndefined => Eq
  | VPrim VUndefined, _ => Gt
  | _, VPrim VUndefined => Lt
  | _, _ => String.compare (ToString x) (ToString y)
  end.

Definition sort_le (x y : value) : bool :=
  match SortCompare x y with
  | Gt => false
  | _ => true
  end.

Fixpoint sort_insert (x : value) (sorted : list value) : list value :=
  match sorted with
  | [] => [x]
  | y :: rest => if sort_le x y then x :: y :: rest else y :: sort_insert x rest
  end.

(** [.sort()]: the stable sort by [SortCompare]. *)
Fixpoint sort (items : list value) : list value :=
  match items with
  | [] => []
  | x :: rest => sort_insert x (sort rest)
  end.

(** [.forEach(f)], the callback acting on a state [S] and able to throw. *)
Fixpoint forEach {S : Type} (f : value -> nat -> S -> result S)
  (items : list value) (index : nat) (s : S) : result S :=
  match items with
  | [] => Ok s
  | item :: rest => s' <- f item index s ;; forEach f rest (Datatypes.S index) s'
  end.

End JS.


Import JS.

(* ===================================================================== *)
(** * The host widget's objects handed to the source *)
(* ===================================================================== *)

Module Context.

(** The Criteria instance the widget passes as [that]: the fields the
    source reads.  [s_origData] is [that.s.origData], [s_topGroup] names
    the element behind [that.s.topGroup]; [that.s.dt] is the one DataTable
    of the world ([Events.world]). *)
Record criteria : Type := {
  s_origData : prim;
  s_topGroup : string;
  classes_value : string;
  classes_input : string
}.

(** The change callback [fn] the widget passes to [init]: a function of
    the host, known here by its name only. *)
Definition callback : Type := string.

(** The DataTables API object passed to [conditionName]. *)
Record dt_api : Type := {
  i18n : string -> value
}.

End Context.

Import Context.

(* ===================================================================== *)
(** * DOM nodes and the jQuery operations the source calls *)
(* ===================================================================== *)

Module DOM.

(** A listener attached with [.on(type, function () { fn(that, this) })]:
    the closure is kept by the variables it captures. *)
Record listener : Type := {
  on_type : string;
  on_fn : callback;
  on_that : criteria
}.

(** Nodes.  [selectedness] is the state of an option element; tag names
    are in lower case. *)
Inductive node : Type :=
| Text (data : string)
| Element (tagName : string) (classList : list string)
          (attributes : list (string * string)) (selectedness : bool)
          (listeners : list listener) (childNodes : list node).

(** A jQuery collection. *)
Definition jq : Type := list node.

(** [$('<tag/>')]: document.createElement. *)
Definition createElement (tag : string) : node :=
  Element tag [] [] false [] [].

Definition tag_of (n : node) : option string :=
  match n with
  | Text _ => None
  | Element tag _ _ _ _ _ => Some tag
  end.

Definition has_tag (tag : string) (n : node) : bool :=
  match tag_of n with
  | Some t => String.eqb t tag
  | None => false
  end.

Definition children_of (n : node) : list node :=
  match n with
  | Text _ => []
  | Element _ _ _ _ _ children => children
  end.

Definition is_selected (n : node) : bool :=
  match n with
  | Text _ => false
  | Element _ _ _ sel _ _ => sel
  end.

Definition set_selected (b : bool) (n : node) : node :=
  match n with
  | Text d => Text d
  | Element tag cls attrs _ ls children => Element tag cls attrs b ls children
  end.

Fixpoint lookup_attr (name : string) (attrs : list (string * string))
  : option string :=
  match attrs with
  | [] => None
  | (k, v) :: rest => if String.eqb k name then Some v else lookup_attr name rest
  end.

Definition getAttribute (name : string) (n : node) : option string :=
  match n with
  | Text _ => None
  | Element _ _ attrs _ _ _ => lookup_attr name attrs
  end.

Definition hasAttribute (name : string) (n : node) : bool :=
  match getAttribute name n with
  | Some _ => true
  | None => false
  end.

Fixpoint store_attr (name v : string) (attrs : list (string * string))
  : list (string * string) :=
  match attrs with
  | [] => [(name, v)]
  | (k, old) :: rest =>
      if String.eqb k name then (k, v) :: rest
      else (k, old) :: store_attr name v rest
  end.

Definition setAttribute (name v : string) (n : node) : node :=
  match n with
  | Text d => Text d
  | Element tag cls attrs sel ls children =>
      Element tag cls (store_attr name v attrs) sel ls children
  end.

Fixpoint textContent (n : node) : string :=
  match n with
  | Text d => d
  | Element _ _ _ _ _ children => String.concat "" (map textContent children)
  end.

(** The descendants of a node, in document order. *)
Fixpoint descendants (n : node) : list node :=
  match n with
  | Text _ => []
  | Element _ _ _ _ _ children =>
      flat_map (fun c => c :: descendants c) children
  end.

(** ** Class names *)

(** The characters jQuery separates class names and words on. *)
Definition is_html_space (c : ascii) : bool :=
  match N_of_ascii c with
  | 9%N | 10%N | 12%N | 13%N | 32%N => true
  | _ => false
  end.

Fixpoint words_from (cs : list ascii) (current : list ascii) : list string :=
  let flush :=
    match current with
    | [] => []
    | _ => [string_of_list_ascii (rev current)]
    end in
  match cs with
  | [] => flush
  | c :: rest =>
      if is_html_space c then flush ++ words_from rest []
      else words_from rest (c :: current)
  end.

Definition words (s : string) : list string :=
  words_from (list_ascii_of_string s) [].

Definition stripAndCollapse (s : string) : string := join " " (words s).

Definition add_class (cls : list string) (name : string) : list string :=
  if existsb (String.eqb name) cls then cls else cls ++ [name].

(** [.addClass(names)]: every name not yet present is added, in order. *)
Definition addClass (names : string) (q : jq) : jq :=
  map (fun n =>
         match n with
         | Text d => Text d
         | Element tag cls attrs sel ls children =>
             Element tag (fold_left add_class (words names) cls)
                     attrs sel ls children
         end) q.

(** ** Values and text *)

(** What [.val(v)] stores: null and undefined become the empty string, a
    number its decimal form, the members of an array their string forms;
    the DOM then converts what it is given to a string. *)
Definition val_string (v : value) : string :=
  match v with
  | VPrim VUndefined | VPrim VNull => ""
  | _ => ToString v
  end.

(** [.val(v)] as the source uses it, on option elements: it sets the
    value attribute.  Other nodes of the collection are left as they are
    (the source never passes any). *)
Definition val_set (v : value) (q : jq) : jq :=
  map (fun n => if has_tag "option" n
                then setAttribute "value" (val_string v) n
                else n) q.

(** [.text(v)]: an undefined argument changes nothing; otherwise the
    children are replaced by one text node (none for the empty string),
    null counting as the empty string. *)
Definition text_set (v : value) (q : jq) : jq :=
  match v with
  | VPrim VUndefined => q
  | _ =>
      let s := match v with VPrim VNull => "" | _ => ToString v end in
      map (fun n =>
             match n with
             | Text d => Text d
             | Element tag cls attrs sel ls _ =>
                 Element tag cls attrs sel ls
                         (if String.eqb s "" then [] else [Text s])
             end) q
  end.

(** ** Select controls *)

(** The options of a select: its option children (option groups are not
    modelled). *)
Definition options (sel : node) : list node :=
  filter (has_tag "option") (children_of sel).

Fixpoint index_where {A : Type} (p : A -> bool) (l : list A) : option nat :=
  match l with
  | [] => None
  | x :: rest =>
      if p x then Some O
      else match index_where p rest with
           | Some i => Some (S i)
           | None => None
           end
  end.

(** [selectedIndex]: the first option whose selectedness is true; [None]
    stands for -1. *)
Definition selectedIndex (sel : node) : option nat :=
  index_where is_selected (options sel).

Definition selected_option (sel : node) : option node :=
  match selectedIndex sel with
  | Some i => nth_error (options sel) i
  | None => None
  end.

(** Keeps the selectedness of the last selected option only. *)
Fixpoint keep_last_selected (children : list node) : list node :=
  match children with
  | [] => []
  | c :: rest =>
      if has_tag "option" c && is_selected c
         && existsb (fun o => has_tag "option" o && is_selected o) rest
      then set_selected false c :: keep_last_selected rest
      else c :: keep_last_selected rest
  end.

(** Selects the first option that is not disabled. *)
Fixpoint select_first_enabled (children : list node) : list node :=
  match children with
  | [] => []
  | c :: rest =>
      if has_tag "option" c && negb (hasAttribute "disabled" c)
      then set_selected true c :: rest
      else c :: select_first_enabled rest
  end.

(** The selectedness setting algorithm of a select of display size 1
    (neither [multiple] nor [size] given), run when its options change:
    with no option selected the first enabled one becomes selected; with
    several, only the last stays selected. *)
Definition reset_selectedness (sel : node) : node :=
  match sel with
  | Text d => Text d
  | Element tag cls attrs s ls children =>
      if String.eqb tag "select"
         && negb (hasAttribute "multiple" sel || hasAttribute "size" sel)
      then
        Element tag cls attrs s ls
          (if existsb (fun o => has_tag "option" o && is_selected o) children
           then keep_last_selected children
           else select_first_enabled children)
      else sel
  end.

(** [content.appendTo(target)]: the nodes become the last children of the
    target. *)
Definition appendTo (content : jq) (target : jq) : jq :=
  map (fun t =>
         match t with
         | Text d => Text d
         | Element tag cls attrs sel ls children =>
             reset_selectedness
               (Element tag cls attrs sel ls (children ++ content))
         end) target.

(** [.on(type, function () { fn(that, this) })]. *)
Definition on (type : string) (fn : callback) (that : criteria) (q : jq) : jq :=
  map (fun n =>
         match n with
         | Text d => Text d
         | Element tag cls attrs sel ls children =>
             Element tag cls attrs sel
                     (ls ++ [{| on_type := type; on_fn := fn; on_that := that |}])
                     children
         end) q.

(** [.find(tag)]: the descendants with that tag name. *)
Definition find (tag : string) (q : jq) : jq :=
  flat_map (fun n => filter (has_tag tag) (descendants n)) q.

(** The value of an option: its value attribute, or else its text. *)
Definition option_value (o : node) : string :=
  match getAttribute "value" o with
  | Some v => v
  | None => stripAndCollapse (textContent o)
  end.

Definition option_enabled (o : node) : bool := negb (hasAttribute "disabled" o).

(** jQuery's value hook of a select.  A single select gives the value of
    the option at [selectedIndex], and null when there is none or it is
    disabled; a multiple select gives the array of the selected values. *)
Definition select_val (sel : node) : value :=
  if hasAttribute "multiple" sel then
    VArr (map (fun o => VPrim (VStr (option_value o)))
              (filter (fun o => is_selected o && option_enabled o) (options sel)))
  else
    match selected_option sel with
    | Some o => if option_enabled o then VStr (option_value o) else VNull
    | None => VNull
    end.

(** [.val()]: the value of the first element of the collection, undefined
    for the empty collection.  Elements other than select and option have
    no value in this model, which jQuery reports as the empty string. *)
Definition val (q : jq) : value :=
  match q with
  | [] => VUndefined
  | n :: _ =>
      if has_tag "select" n then select_val n
      else if has_tag "option" n then VStr (option_value n)
      else VStr ""
  end.

End DOM.

Import DOM.

(* ===================================================================== *)
(** * Events of the host: the DataTable and the user *)
(* ===================================================================== *)

Module Events.

(** What the source asks of the host, in the order it happens. *)
Inductive host_call : Type :=
| CallFn (fn : callback) (that : criteria) (this : node)
| Trigger (target : string) (event : string).

(** Handlers registered on the DataTable.  [RedrawLogic that] is the
    closure [function () { that.s.topGroup.trigger('dtsb-redrawLogic') }]
    of the source; [HostHandler] is any handler of the host itself, known
    by the calls it makes. *)
Inductive handler : Type :=
| RedrawLogic (that : criteria)
| HostHandler (effect : list host_call).

Definition run_handler (h : handler) : list host_call :=
  match h with
  | RedrawLogic that => [Trigger (s_topGroup that) "dtsb-redrawLogic"]
  | HostHandler effect => effect
  end.

(** A listener of the DataTable: the event name it was registered under
    (one name, with its name spaces), whether it is one-shot, and its
    handler. *)
Record dt_listener : Type := {
  events : string;
  once : bool;
  run : handler
}.

(** The world: the listeners of the DataTable [that.s.dt] and the trace of
    the calls made so far. *)
Record world : Type := {
  dt_listeners : list dt_listener;
  trace : list host_call
}.

(** [dt.one(events, handler)]: the handler is to run at the next event
    of that name and never again. *)
Definition dt_one (ev : string) (h : handler) (w : world) : world :=
  {| dt_listeners := dt_listeners w ++ [{| events := ev; once := true; run := h |}];
     trace := trace w |}.

(** The event type of a name such as [draw.dtsb]: what precedes the
    first dot; the rest are name spaces. *)
Fixpoint event_type (name : string) : string :=
  match name with
  | EmptyString => EmptyString
  | String c rest =>
      if Ascii.eqb c "."%char then EmptyString else String c (event_type rest)
  end.

Definition listens (type : string) (l : dt_listener) : bool :=
  String.eqb (event_type (events l)) type.

(** The DataTable fires an event: every listener of that type runs, in
    the order of registration, and the one-shot ones are removed. *)
Definition fire (type : string) (w : world) : world :=
  {| dt_listeners :=
       filter (fun l => negb (listens type l && once l)) (dt_listeners w);
     trace :=
       trace w ++ flat_map (fun l => run_handler (run l))
                           (filter (listens type) (dt_listeners w)) |}.

Fixpoint fire_times (n : nat) (type : string) (w : world) : world :=
  match n with
  | O => w
  | S n' => fire_times n' type (fire type w)
  end.

(** ** The user picks an option *)

Definition deselect (o : node) : node :=
  if has_tag "option" o then set_selected false o else o.

Fixpoint select_nth (i : nat) (children : list node) : list node :=
  match children with
  | [] => []
  | o :: rest =>
      if has_tag "option" o then
        match i with
        | O => set_selected true o :: map deselect rest
        | S i' => set_selected false o :: select_nth i' rest
        end
      else o :: select_nth i rest
  end.

(** Picking the [i]-th option of a select makes it the selected one;
    an index past the last option changes nothing. *)
Definition pick_option (i : nat) (sel : node) : node :=
  match sel with
  | Text d => Text d
  | Element tag cls attrs s ls children =>
      if has_tag "select" sel && (i <? List.length (options sel))%nat
      then Element tag cls attrs s ls (select_nth i children)
      else sel
  end.

(** The user picks the [i]-th option of the select controls directly
    inside a wrapper. *)
Definition user_pick (i : nat) (wrapper : node) : node :=
  match wrapper with
  | Text d => Text d
  | Element tag cls attrs s ls children =>
      Element tag cls attrs s ls (map (pick_option i) children)
  end.

(** The change event bubbles from the select to the wrapper: the change
    listeners of the wrapper run with [this] bound to the wrapper. *)
Definition dispatch_change (wrapper : node) (w : world) : world :=
  match wrapper with
  | Text _ => w
  | Element _ _ _ _ ls _ =>
      {| dt_listeners := dt_listeners w;
         trace := trace w ++
                  map (fun l => CallFn (on_fn l) (on_that l) wrapper)
                      (filter (fun l => String.eqb (on_type l) "change") ls) |}
  end.

End Events.

Import Events.

(* ===================================================================== *)
(** * search_builder_conditions.js *)
(* ===================================================================== *)

(** An entry of [fields_config]. *)
Record FieldConfig : Type := {
  name : prim;
  choices : value
}.

(** What the widget passes to [inputValue] and [isInputValid]: the array
    of the controls [init] returned, a control itself, the Criteria
    instance, or nothing. *)
Inductive arg : Type :=
| ArgUndefined
| ArgControls (el : list jq)
| ArgQuery (q : jq)
| ArgCriteria (that : criteria).

(** What [init] returns: nothing, or the control. *)
Inductive init_ret : Type :=
| RetUndefined
| RetControl (el : jq).

(** A condition object.  A method the object does not have is [None]. *)
Record descriptor : Type := {
  conditionName : option (dt_api -> value);
  init : option (criteria -> callback -> world -> result (init_ret * world));
  inputValue : option (list arg -> result value);
  isInputValid : option (list arg -> result value)
}.

(** Calling [d.m(...)]: a missing method is undefined, and calling
    undefined is a TypeError. *)
Definition invoke {F A : Type} (m : option F) (call : F -> result A) : result A :=
  match m with
  | Some f => call f
  | None => Throw TypeError
  end.

(** The parameter at position [i] of an argument list. *)
Definition parameter (i : nat) (args : list arg) : arg :=
  nth i args ArgUndefined.

(** [$(el[0])]: indexing undefined is a TypeError; an array gives its
    first control, a control its first element, a Criteria instance has
    no such property; [$(undefined)] is the empty collection. *)
Definition jQuery_first (el : arg) : result jq :=
  match el with
  | ArgUndefined => Throw TypeError
  | ArgControls [] => Ok []
  | ArgControls (q :: _) => Ok q
  | ArgQuery [] => Ok []
  | ArgQuery (n :: _) => Ok [n]
  | ArgCriteria _ => Ok []
  end.

(** Helper function for conditions that don't require input. *)
Definition noInputCondition (translationKey : string) : descriptor :=
  {| conditionName := Some (fun dt => i18n dt translationKey);
     init := Some (fun that _ w =>
                     Ok (RetUndefined, dt_one "draw.dtsb" (RedrawLogic that) w));
     inputValue := Some (fun _ => Ok (VPrim VUndefined));
     isInputValid := Some (fun _ => Ok (VPrim (VBool true))) |}.

Fixpoint get_field_choices (field_name : prim) (fields_config : list FieldConfig)
  : value :=
  match fields_config with
  | [] => VUndefined
  | item :: rest =>
      if loose_eq (name item) field_name then choices item
      else get_field_choices field_name rest
  end.

(** The sentinel, [$('<option value=(empty)>Select</option>')]. *)
Definition sentinel_option : node :=
  Element "option" [] [("value", "")] false [] [Text "Select"].

(** Create a select dropdown with values. *)
Definition createSelectDropdown (that : criteria) (values : value) : result jq :=
  let wrapper := [createElement "div"] in
  let input :=
    addClass "dtsb-value dtsb-dropDown form-select dtsb-italic dtsb-greyscale"
      (addClass (classes_input that)
         (addClass (classes_value that) [createElement "select"])) in
  let input := appendTo [sentinel_option] input in
  items <- Array_from values ;;
  input <- forEach (fun item index input =>
                      v <- get_index item 0 ;;
                      label <- get_index item 1 ;;
                      let option := text_set label (val_set v [createElement "option"]) in
                      Ok (appendTo option input))
                   (sort items) 0 input ;;
  Ok (appendTo input wrapper).

Module array.

Definition equal (fields_config : list FieldConfig) : descriptor :=
  {| conditionName := Some (fun dt => i18n dt "searchBuilder.conditions.array.equals");
     init := Some (fun that fn w =>
                     let values := get_field_choices (s_origData that) fields_config in
                     el <- createSelectDropdown that values ;;
                     let el := on "change" fn that el in
                     Ok (RetControl el, w));
     inputValue := Some (fun args =>
                           q <- jQuery_first (parameter 0 args) ;;
                           Ok (val (find "select" q)));
     isInputValid := Some (fun args =>
                             q <- jQuery_first (parameter 0 args) ;;
                             len <- length_of (val (find "select" q)) ;;
                             Ok (VPrim (VBool (greater_than len 0)))) |}.

Definition notEqual (fields_config : list FieldConfig) : descriptor :=
  {| conditionName := Some (fun dt => i18n dt "searchBuilder.conditions.array.not");
     init := Some (fun that fn w =>
                     let values := get_field_choices (s_origData that) fields_config in
                     el <- createSelectDropdown that values ;;
                     let el := on "change" fn that el in
                     Ok (RetControl el, w));
     inputValue := Some (fun args =>
                           q <- jQuery_first (parameter 0 args) ;;
                           Ok (val (find "select" q)));
     isInputValid := Some (fun args =>
                             q <- jQuery_first (parameter 0 args) ;;
                             len <- length_of (val (find "select" q)) ;;
                             Ok (VPrim (VBool (greater_than len 0)))) |}.

Definition contains (fields_config : list FieldConfig) : descriptor :=
  {| conditionName := Some (fun dt => i18n dt "searchBuilder.conditions.array.contains");
     init := Some (fun that fn w =>
                     let values := get_field_choices (s_origData that) fields_config in
                     el <- createSelectDropdown that values ;;
                     let el := on "change" fn that el in
                     Ok (RetControl el, w));
     inputValue := Some (fun args =>
                           q <- jQuery_first (parameter 0 args) ;;
                           Ok (val (find "select" q)));
     isInputValid := Some (fun args =>
                             q <- jQuery_first (parameter 0 args) ;;
                             len <- length_of (val (find "select" q)) ;;
                             Ok (VPrim (VBool (greater_than len 0)))) |}.

Definition notContains (fields_config : list FieldConfig) : descriptor :=
  {| conditionName := Some (fun dt => i18n dt "searchBuilder.conditions.array.notContains");
     init := Some (fun that fn w =>
                     let values := get_field_choices (s_origData that) fields_config in
                     el <- createSelectDropdown that values ;;
                     let el := on "change" fn that el in
                     Ok (RetControl el, w));
     inputValue := Some (fun args =>
                           q <- jQuery_first (parameter 0 args) ;;
                           Ok (val (find "select" q)));
     isInputValid := Some (fun args =>
                             q <- jQuery_first (parameter 0 args) ;;
                             len <- length_of (val (find "select" q)) ;;
                             Ok (VPrim (VBool (greater_than len 0)))) |}.

Definition empty (_ : list FieldConfig) : descriptor :=
  noInputCondition "searchBuilder.conditions.array.empty".

Definition notEmpty (_ : list FieldConfig) : descriptor :=
  noInputCondition "searchBuilder.conditions.array.notEmpty".

End array.

(** [return {}]: use the default DataTables implementation. *)
Definition empty_object : descriptor :=
  {| conditionName := None; init := None; inputValue := None; isInputValid := None |}.

(** A condition factory; the ones written without a parameter ignore
    what they are given. *)
Definition factory : Type := list FieldConfig -> descriptor.

Definition default_implementation : factory := fun _ => empty_object.

Definition no_input (translationKey : string) : factory :=
  fun _ => noInputCondition translationKey.

(** The main conditions object organized by data type. *)
Definition SearchBuilderConditions : list (string * list (string * factory)) :=
  [ ("array",
     [ ("equal", array.equal);
       ("notEqual", array.notEqual);
       ("contains", array.contains);
       ("notContains", array.notContains);
       ("empty", array.empty);
       ("notEmpty", array.notEmpty) ]);
    ("string",
     [ ("equal", default_implementation);
       ("notEqual", default_implementation);
       ("contains", default_implementation);
       ("notContains", default_implementation);
       ("startsWith", default_implementation);
       ("notStartsWith", default_implementation);
       ("endsWith", default_implementation);
       ("notEndsWith", default_implementation);
       ("empty", no_input "starlette-admin.conditions.empty");
       ("notEmpty", no_input "starlette-admin.conditions.notEmpty") ]);
    ("number",
     [ ("equal", default_implementation);
       ("notEqual", default_implementation);
       ("greaterThan", default_implementation);
       ("greaterThanOrEqual", default_implementation);
       ("lessThan", default_implementation);
       ("lessThanOrEqual", default_implementation);
       ("between", default_implementation);
       ("notBetween", default_implementation);
       ("empty", no_input "starlette-admin.conditions.empty");
       ("notEmpty", no_input "starlette-admin.conditions.notEmpty") ]);
    ("date",
     [ ("equal", default_implementation);
       ("notEqual", default_implementation);
       ("greaterThan", default_implementation);
       ("greaterThanOrEqual", default_implementation);
       ("lessThan", default_implementation);
       ("lessThanOrEqual", default_implementation);
       ("between", default_implementation);
       ("notBetween", default_implementation);
       ("empty", no_input "starlette-admin.conditions.empty");
       ("notEmpty", no_input "starlette-admin.conditions.notEmpty") ]);
    ("boolean",
     [ ("true", no_input "starlette-admin.conditions.true");
       ("false", no_input "starlette-admin.conditions.false");
       ("empty", no_input "starlette-admin.conditions.empty");
       ("notEmpty", no_input "starlette-admin.conditions.notEmpty") ]) ].

(** Reading a property of an object literal. *)
Fixpoint get_property {A : Type} (key : string) (object : list (string * A))
  : option A :=
  match object with
  | [] => None
  | (k, v) :: rest => if String.eqb k key then Some v else get_property key rest
  end.

(** [SearchBuilderConditions[data_type][condition]]. *)
Definition condition_factory (data_type condition : string) : option factory :=
  match get_property data_type SearchBuilderConditions with
  | Some conditions => get_property condition conditions
  | None => None
  end.

(* ===================================================================== *)
(** * Sample inputs *)
(* ===================================================================== *)

(** The field list of the specification's example. *)
Definition status_choices : value :=
  VArr [VArr [VPrim (VStr "1"); VPrim (VStr "Active")];
        VArr [VPrim (VStr "0"); VPrim (VStr "Inactive")]].

Definition status_fields : list FieldConfig :=
  [{| name := VStr "status"; choices := status_choices |}].

(** A Criteria instance with the class names of the SearchBuilder. *)
Definition criteria_of (field : prim) : criteria :=
  {| s_origData := field;
     s_topGroup := "topGroup";
     classes_value := "dtsb-value";
     classes_input := "dtsb-input" |}.

(** A field whose choice values are numbers. *)
Definition level_fields : list FieldConfig :=
  [{| name := VStr "level";
      choices := VArr [VArr [VPrim (VNum 1); VPrim (VStr "One")]] |}].

Definition empty_world : world := {| dt_listeners := []; trace := [] |}.

Definition updateListener : callback := "updateListener".

Definition english : dt_api := {| i18n := fun key => VPrim (VStr key) |}.

(* ===================================================================== *)
(** * Vocabulary of the properties *)
(* ===================================================================== *)

(** An entry whose name is not [==] to the queried one. *)
Definition misses (field_name : prim) (item : FieldConfig) : Prop :=
  loose_eq (name item) field_name = false.

(** The type of a primitive, as [typeof] names it. *)
Definition typeof (p : prim) : string :=
  match p with
  | VUndefined => "undefined"
  | VNull => "object"
  | VBool _ => "boolean"
  | VNum _ => "number"
  | VStr _ => "string"
  end.

(** The triggers of the recompute-logic event on a top group. *)
Definition is_redraw (topGroup : string) (c : host_call) : bool :=
  match c with
  | Trigger target event =>
      String.eqb target topGroup && String.eqb event "dtsb-redrawLogic"
  | CallFn _ _ _ => false
  end.

Definition redraws (topGroup : string) (tr : list host_call) : nat :=
  List.length (filter (is_redraw topGroup) tr).

(** The data types whose comparison conditions are left to the widget. *)
Definition deferred_types : list string := ["string"; "number"; "date"].

(** The four array conditions that take a value, each with the
    translation key of its name. *)
Definition array_value_conditions (fields_config : list FieldConfig)
  : list (string * descriptor) :=
  [ ("searchBuilder.conditions.array.equals", array.equal fields_config);
    ("searchBuilder.conditions.array.not", array.notEqual fields_config);
    ("searchBuilder.conditions.array.contains", array.contains fields_config);
    ("searchBuilder.conditions.array.notContains", array.notContains fields_config) ].

(** A call that does nothing and returns nothing. *)
Definition returns_nothing {A : Type} (nothing : A) (r : result A) : Prop :=
  r = Ok nothing.

(** ** Choice lists and rendered dropdowns *)

(** A choice pair as it sits in a choice list, and the list itself. *)
Definition pair_item (p : value * value) : value := VArr [fst p; snd p].

Definition choice_list (pairs : list (value * value)) : value :=
  VArr (map pair_item pairs).

(** [item[0]] and [item[1]] of one item. *)
Definition item_pair (item : value) : result (value * value) :=
  v <- get_index item 0 ;;
  label <- get_index item 1 ;;
  Ok (v, label).

Fixpoint item_pairs (items : list value) : result (list (value * value)) :=
  match items with
  | [] => Ok []
  | item :: rest =>
      p <- item_pair item ;;
      ps <- item_pairs rest ;;
      Ok (p :: ps)
  end.

(** The string form a label is shown in. *)
Definition label_string (label : value) : string :=
  match label with
  | VPrim VUndefined | VPrim VNull => ""
  | _ => ToString label
  end.

Definition label_nodes (label : value) : list node :=
  if String.eqb (label_string label) "" then [] else [Text (label_string label)].

(** The option element built from a choice pair. *)
Definition rendered_option (p : value * value) : node :=
  Element "option" [] [("value", val_string (fst p))] false []
          (label_nodes (snd p)).

(** The sentinel once it sits in the select. *)
Definition selected_sentinel : node :=
  Element "option" [] [("value", "")] true [] [Text "Select"].

(** The class names of the select. *)
Definition select_classes (that : criteria) : list string :=
  fold_left add_class
    (words "dtsb-value dtsb-dropDown form-select dtsb-italic dtsb-greyscale")
    (fold_left add_class (words (classes_input that))
       (fold_left add_class (words (classes_value that)) [])).

(** A wrapper around one select with the given children, carrying the
    given listeners. *)
Definition control (that : criteria) (ls : list listener) (children : list node)
  : jq :=
  [Element "div" [] [] false ls
     [Element "select" (select_classes that) [] false [] children]].

(** An option element as the dropdown builder makes them: a value
    attribute and nothing else, over text. *)
Definition plain_option (o : node) : Prop :=
  exists (v : string) (sel : bool) (kids : list node),
    o = Element "option" [] [("value", v)] sel [] kids /\
    Forall (fun k => tag_of k = None) kids.

(** The user's picks so far, applied to a control. *)
Definition after_picks (picks : list nat) (el : jq) : jq :=
  fold_left (fun e i => map (user_pick i) e) picks el.

(** The order of the default sort, on choice pairs. *)
Definition pair_le (p q : value * value) : Prop :=
  sort_le (pair_item p) (pair_item q) = true.

(** Two items the default sort does not tell apart. *)
Definition same_key (k x : value) : bool :=
  match SortCompare k x with
  | Eq => true
  | _ => false
  end.

(** What the options after the sentinel show: value and label. *)
Definition shown (opts : list node) : list (string * string) :=
  map (fun o => (option_value o, textContent o)) opts.

(** The reading of the options under which each one's value and label
    are the very elements of its choice pair. *)
Definition options_are_pairs (pairs : list (value * value)) (opts : list node)
  : Prop :=
  Permutation
    (map (fun o => (VPrim (VStr (option_value o)), VPrim (VStr (textContent o)))) opts)
    pairs.

(** ** Vocabulary of the further properties *)

(** The data types of the registry. *)
Definition data_types : list string :=
  ["array"; "string"; "number"; "date"; "boolean"].

(** [get_field_choices] as it would be with [===] in place of [==]. *)
Fixpoint get_field_choices_strict (field_name : prim)
  (fields_config : list FieldConfig) : value :=
  match fields_config with
  | [] => VUndefined
  | item :: rest =>
      if strict_eq (name item) field_name then choices item
      else get_field_choices_strict field_name rest
  end.

(** Undefined or null. *)
Definition nullish_prim (p : prim) : bool :=
  match p with
  | VUndefined | VNull => true
  | _ => false
  end.

Definition nullish (v : value) : bool :=
  match v with
  | VPrim p => nullish_prim p
  | VArr _ => false
  end.

(** The class names the builder gives every select. *)
Definition fixed_classes : list string :=
  ["dtsb-value"; "dtsb-dropDown"; "form-select"; "dtsb-italic"; "dtsb-greyscale"].

(** What an option shows, as one string: value, comma, label. *)
Definition shown_key (o : node) : string :=
  option_value o ++ "," ++ textContent o.

Definition listeners_of (n : node) : list listener :=
  match n with
  | Text _ => []
  | Element _ _ _ _ ls _ => ls
  end.

(** The [init] of conditions without input, for one filter row after the
    other: each row gives its translation key and its Criteria instance. *)
Fixpoint init_each (rows : list (string * criteria)) (fn : callback) (w : world)
  : result world :=
  match rows with
  | [] => Ok w
  | (key, that) :: rest =>
      r <- invoke (init (noInputCondition key)) (fun m => m that fn w) ;;
      init_each rest fn (snd r)
  end.

(** The rows whose top group is the given one. *)
Definition rows_of (topGroup : string) (rows : list (string * criteria)) : nat :=
  List.length (filter (fun r => String.eqb (s_topGroup (snd r)) topGroup) rows).

(* ===================================================================== *)
(** * Choice lookup *)
(* ===================================================================== *)

Section ChoiceLookup.

Variable field_name : prim.

Lemma get_field_choices_skip (before rest : list FieldConfig) :
  Forall (misses field_name) before ->
  get_field_choices field_name (before ++ rest) = get_field_choices field_name rest.
Proof.
  induction 1 as [|item before Hmiss _ IH]; simpl; [reflexivity|].
  unfold misses in Hmiss. rewrite Hmiss. exact IH.
Qed.

Lemma get_field_choices_none (fields_config : list FieldConfig) :
  Forall (misses field_name) fields_config ->
  get_field_choices field_name fields_config = VPrim VUndefined.
Proof.
  intros Hnone. rewrite <- (app_nil_r fields_config).
  rewrite get_field_choices_skip by exact Hnone. reflexivity.
Qed.

Lemma get_field_choices_split (fields_config : list FieldConfig) :
  (exists before item after,
      fields_config = before ++ item :: after /\
      Forall (misses field_name) before /\
      loose_eq (name item) field_name = true)
  \/ Forall (misses field_name) fields_config.
Proof.
  induction fields_config as [|item rest IH].
  - right. constructor.
  - destruct (loose_eq (name item) field_name) eqn:Hitem.
    + left. exists [], item, rest. repeat split; [constructor | exact Hitem].
    + destruct IH as [(before & hit & after & -> & Hbefore & Hhit) | Hnone].
      * left. exists (item :: before), hit, after.
        repeat split; [constructor; assumption | exact Hhit].
      * right. constructor; assumption.
Qed.

End ChoiceLookup.

(** On two strings [==] is equality of the strings. *)
Lemma loose_eq_strings (a b : string) :
  loose_eq (VStr a) (VStr b) = true <-> a = b.
Proof. simpl. apply String.eqb_eq. Qed.

(** [==] holds whenever [===] does. *)
Lemma strict_eq_loose_eq (x y : prim) :
  strict_eq x y = true -> loose_eq x y = true.
Proof. destruct x, y; simpl; congruence. Qed.

(** C1: for every field name and every list of field configurations,
    [get_field_choices] returns the choices of the first entry whose name
    equals ([==]) the queried name, whatever entries follow it, and
    returns undefined when no entry matches. *)
Theorem get_field_choices_first_match
  (field_name : prim) (fields_config : list FieldConfig) :
  (exists before item after,
      fields_config = before ++ item :: after /\
      Forall (misses field_name) before /\
      loose_eq (name item) field_name = true /\
      get_field_choices field_name fields_config = choices item /\
      forall later : list FieldConfig,
        get_field_choices field_name (before ++ item :: later) = choices item)
  \/
  (Forall (misses field_name) fields_config /\
   get_field_choices field_name fields_config = VPrim VUndefined).
Proof.
  destruct (get_field_choices_split field_name fields_config)
    as [(before & item & after & -> & Hbefore & Hitem) | Hnone].
  - left. exists before, item, after.
    assert (Hscan : forall later,
               get_field_choices field_name (before ++ item :: later) = choices item).
    { intros later. rewrite get_field_choices_skip by exact Hbefore.
      simpl. rewrite Hitem. reflexivity. }
    repeat split; auto.
  - right. split; [exact Hnone | apply get_field_choices_none; exact Hnone].
Qed.

(** The example of the specification. *)
Example get_field_choices_status :
  get_field_choices (VStr "status") status_fields = status_choices /\
  get_field_choices (VStr "missing") status_fields = VPrim VUndefined.
Proof. split; reflexivity. Qed.

(** C10: [get_field_choices] compares names with [==], not [===]: for every
    field name and list the result is the choices of the first entry
    whose name is [==] to it.  So in a list that starts with an entry of
    another name, goes on with an entry named by the number 1 and ends
    with one named by the string 1, the query for the string 1 skips the
    first entry and returns the choices of the second, whose name is of
    another type and not strictly equal, where the comparison with [===]
    would have gone on to the third. *)
Theorem get_field_choices_loose_equality :
  (forall (field_name : prim) (fields_config : list FieldConfig),
      get_field_choices field_name fields_config =
      match List.find (fun e => loose_eq (name e) field_name) fields_config with
      | Some e => choices e
      | None => VPrim VUndefined
      end) /\
  exists (field_name : prim) (before : list FieldConfig) (item : FieldConfig)
         (after : list FieldConfig),
    before <> [] /\
    Forall (misses field_name) before /\
    Forall (fun e => choices e <> choices item) before /\
    Forall (fun e => choices e <> choices item) after /\
    typeof (name item) <> typeof field_name /\
    strict_eq (name item) field_name = false /\
    loose_eq (name item) field_name = true /\
    choices item <> VPrim VUndefined /\
    get_field_choices field_name (before ++ item :: after) = choices item /\
    get_field_choices_strict field_name (before ++ item :: after) <> choices item.
Proof.
  split.
  - intros field_name fields_config.
    induction fields_config as [|item rest IH]; [reflexivity|].
    cbn [get_field_choices List.find].
    destruct (loose_eq (name item) field_name); [reflexivity | exact IH].
  - exists (VStr "1"),
           [{| name := VStr "status"; choices := status_choices |}],
           {| name := VNum 1;
              choices := VArr [VArr [VPrim (VStr "a"); VPrim (VStr "A")]] |},
           [{| name := VStr "1"; choices := VArr [] |}].
    repeat split; try reflexivity; try discriminate;
      repeat constructor; discriminate.
Qed.

(* ===================================================================== *)
(** * Conditions without input *)
(* ===================================================================== *)

(** C8: for every translation key and every argument list, the empty one
    included, [isInputValid] of [noInputCondition] returns true and
    [inputValue] returns undefined. *)
Theorem noInputCondition_no_value_always_valid
  (translationKey : string) (args : list arg) :
  invoke (isInputValid (noInputCondition translationKey)) (fun m => m args)
    = Ok (VPrim (VBool true)) /\
  invoke (inputValue (noInputCondition translationKey)) (fun m => m args)
    = Ok (VPrim VUndefined).
Proof. split; reflexivity. Qed.

Section Draw.

Variable type : string.

Lemma fire_dt_one (ev : string) (h : handler) (w : world) :
  event_type ev = type ->
  fire type (dt_one ev h w) =
  {| dt_listeners := dt_listeners (fire type w);
     trace := trace (fire type w) ++ run_handler h |}.
Proof.
  intros Hev. unfold fire, dt_one. cbn [dt_listeners trace].
  rewrite !filter_app, flat_map_app. cbn [filter].
  unfold listens at 2 4. cbn [events once]. rewrite Hev, String.eqb_refl.
  cbn [andb negb flat_map run]. rewrite !app_nil_r, app_assoc. reflexivity.
Qed.

(** What later events add to the trace depends on the listeners only. *)
Lemma fire_times_listeners (n : nat) :
  forall w1 w2 : world,
    dt_listeners w1 = dt_listeners w2 ->
    exists added,
      trace (fire_times n type w1) = trace w1 ++ added /\
      trace (fire_times n type w2) = trace w2 ++ added /\
      dt_listeners (fire_times n type w1) = dt_listeners (fire_times n type w2).
Proof.
  induction n as [|n IH]; intros w1 w2 Hsame.
  - exists []. rewrite !app_nil_r. auto.
  - cbn [fire_times].
    destruct (IH (fire type w1) (fire type w2)) as (added & H1 & H2 & H3).
    { unfold fire. cbn [dt_listeners]. rewrite Hsame. reflexivity. }
    exists (flat_map (fun l => run_handler (run l))
                     (filter (listens type) (dt_listeners w1)) ++ added).
    rewrite H1, H2. unfold fire in *. cbn [trace] in *.
    rewrite Hsame in *. rewrite !app_assoc. auto.
Qed.

End Draw.

Lemma redraws_app (topGroup : string) (a b : list host_call) :
  redraws topGroup (a ++ b) = redraws topGroup a + redraws topGroup b.
Proof. unfold redraws. rewrite filter_app, length_app. reflexivity. Qed.

(** C9: [init] of a condition without input subscribes a one-shot
    listener to the draw event: nothing is triggered at [init], the first
    draw that follows triggers the recompute logic of the top group once,
    the listener is then gone, and however many draws follow, the count
    of triggers exceeds by exactly one what the host would have seen
    without the [init]. *)
Theorem noInputCondition_init_redraws_once
  (translationKey : string) (that : criteria) (fn : callback) (w : world) :
  exists w' : world,
    invoke (init (noInputCondition translationKey)) (fun m => m that fn w)
      = Ok (RetUndefined, w') /\
    dt_listeners w' =
      dt_listeners w ++
      [{| events := "draw.dtsb"; once := true; run := RedrawLogic that |}] /\
    trace w' = trace w /\
    trace (fire "draw" w') =
      trace (fire "draw" w) ++ [Trigger (s_topGroup that) "dtsb-redrawLogic"] /\
    forall n : nat,
      redraws (s_topGroup that) (trace (fire_times n "draw" w')) =
        redraws (s_topGroup that) (trace (fire_times n "draw" w))
        + match n with O => 0 | S _ => 1 end /\
      dt_listeners (fire_times (S n) "draw" w') =
        dt_listeners (fire_times (S n) "draw" w).
Proof.
  exists (dt_one "draw.dtsb" (RedrawLogic that) w).
  assert (Hfirst := fire_dt_one "draw" "draw.dtsb" (RedrawLogic that) w eq_refl).
  repeat split; try reflexivity.
  - rewrite Hfirst. reflexivity.
  - destruct n as [|n]; [unfold dt_one; cbn [fire_times trace]; lia|].
    cbn [fire_times]. rewrite Hfirst.
    destruct (fire_times_listeners "draw" n
                {| dt_listeners := dt_listeners (fire "draw" w);
                   trace := trace (fire "draw" w) ++ run_handler (RedrawLogic that) |}
                (fire "draw" w) eq_refl) as (added & H1 & H2 & _).
    rewrite H1, H2. cbn [trace run_handler]. rewrite !redraws_app.
    unfold redraws at 2. cbn [filter is_redraw].
    rewrite !String.eqb_refl. cbn. lia.
  - cbn [fire_times]. rewrite Hfirst.
    destruct (fire_times_listeners "draw" n
                {| dt_listeners := dt_listeners (fire "draw" w);
                   trace := trace (fire "draw" w) ++ run_handler (RedrawLogic that) |}
                (fire "draw" w) eq_refl) as (added & _ & _ & H3).
    exact H3.
Qed.

(** On a table with no other listener the whole trace is that one
    trigger, after one draw and after five. *)
Example noInputCondition_draws :
  trace (fire_times 0 "draw"
           (dt_one "draw.dtsb" (RedrawLogic (criteria_of VUndefined)) empty_world)) = [] /\
  trace (fire_times 1 "draw"
           (dt_one "draw.dtsb" (RedrawLogic (criteria_of VUndefined)) empty_world))
    = [Trigger "topGroup" "dtsb-redrawLogic"] /\
  trace (fire_times 5 "draw"
           (dt_one "draw.dtsb" (RedrawLogic (criteria_of VUndefined)) empty_world))
    = [Trigger "topGroup" "dtsb-redrawLogic"].
Proof. repeat split; reflexivity. Qed.

(* ===================================================================== *)
(** * The registry *)
(* ===================================================================== *)

Lemma noInputCondition_not_empty (translationKey : string) :
  noInputCondition translationKey <> empty_object.
Proof. discriminate. Qed.

(** Reads a hypothesis on a property looked up by a variable key, one
    literal key after the other. *)
Ltac walk_conditions H C :=
  repeat match type of H with
         | context [String.eqb ?k C] =>
             let E := fresh "E" in
             destruct (String.eqb k C) eqn:E; cbv iota in H;
             [apply String.eqb_eq in E | apply String.eqb_neq in E]
         end.

(** In the registry every condition of a string, number or date column
    other than empty and notEmpty is left to the widget. *)
Lemma deferred_conditions (T C : string) (f : factory) :
  In T deferred_types ->
  condition_factory T C = Some f ->
  (C <> "empty" /\ C <> "notEmpty" /\ f = default_implementation)
  \/ (exists key, f = no_input key /\ (C = "empty" \/ C = "notEmpty")).
Proof.
  intros HT Hf. unfold deferred_types in HT. cbn [In] in HT.
  destruct HT as [<- | [<- | [<- | []]]];
    unfold condition_factory in Hf;
    match type of Hf with
    | context [get_property ?T SearchBuilderConditions] =>
        let conditions := fresh "conditions" in
        set (conditions := get_property T SearchBuilderConditions) in Hf;
        cbv [get_property SearchBuilderConditions String.eqb Ascii.eqb Bool.eqb]
          in conditions;
        subst conditions
    end;
    cbv iota beta in Hf; cbn [get_property] in Hf;
    walk_conditions Hf C;
    try discriminate Hf; injection Hf as <-; subst C;
    solve [ left; repeat split; congruence
          | right; eexists; split; [reflexivity | auto] ].
Qed.

(** C6, as amended: for a string, number or date column and a condition
    for which the registry returns the empty descriptor, the descriptor
    has none of the four methods, so nothing is there to invoke: a call
    of any of them is a TypeError; these conditions are all but empty
    and notEmpty. *)
Theorem deferred_descriptor_has_no_methods
  (T C : string) (f : factory) (fields_config : list FieldConfig) :
  In T deferred_types ->
  condition_factory T C = Some f ->
  f fields_config = empty_object ->
  let d := f fields_config in
  (conditionName d = None /\ init d = None /\
   inputValue d = None /\ isInputValid d = None) /\
  (forall dt, invoke (conditionName d) (fun m => Ok (m dt)) = Throw TypeError) /\
  (forall that fn w, invoke (init d) (fun m => m that fn w) = Throw TypeError) /\
  (forall args, invoke (inputValue d) (fun m => m args) = Throw TypeError) /\
  (forall args, invoke (isInputValid d) (fun m => m args) = Throw TypeError) /\
  C <> "empty" /\ C <> "notEmpty".
Proof.
  intros HT Hf Hempty d. subst d. rewrite Hempty.
  repeat split; try reflexivity;
    destruct (deferred_conditions T C f HT Hf)
      as [(H1 & H2 & _) | (key & -> & _)];
    try assumption;
    exfalso; exact (noInputCondition_not_empty key Hempty).
Qed.

Lemma deferred_descriptor_has_no_methods_witness :
  In "string" deferred_types /\
  condition_factory "string" "equal" = Some default_implementation /\
  default_implementation status_fields = empty_object /\
  invoke (init (default_implementation status_fields))
         (fun m => m (criteria_of (VStr "status")) updateListener empty_world)
    = Throw TypeError.
Proof.
  assert (HT : In "string" deferred_types) by (simpl; auto).
  split; [exact HT|]. split; [reflexivity|]. split; [reflexivity|].
  destruct (deferred_descriptor_has_no_methods
              "string" "equal" default_implementation status_fields
              HT eq_refl eq_refl) as (_ & _ & Hinit & _).
  apply Hinit.
Defined.

(** C6, as stated, fails: the equal condition of a string column gives
    the empty descriptor, and invoking its [init] (or any other of the
    four methods) does not return nothing, it throws. *)
Lemma deferred_descriptor_invoke_counterexample :
  exists f : factory,
    In "string" deferred_types /\
    condition_factory "string" "equal" = Some f /\
    f status_fields = empty_object /\
    ~ returns_nothing (RetUndefined, empty_world)
        (invoke (init (f status_fields))
                (fun m => m (criteria_of (VStr "status")) updateListener empty_world)) /\
    ~ returns_nothing (VPrim VUndefined)
        (invoke (conditionName (f status_fields)) (fun m => Ok (m english))) /\
    ~ returns_nothing (VPrim VUndefined)
        (invoke (inputValue (f status_fields)) (fun m => m [])) /\
    ~ returns_nothing (VPrim VUndefined)
        (invoke (isInputValid (f status_fields)) (fun m => m [])).
Proof.
  exists default_implementation. unfold returns_nothing.
  repeat split; try reflexivity; try (simpl; auto; fail); discriminate.
Qed.

(* ===================================================================== *)
(** * The array conditions *)
(* ===================================================================== *)

(** C7: any two of the four array conditions equal, notEqual, contains
    and notContains behave alike in [init], [inputValue] and
    [isInputValid] on every input; each one's [conditionName] is the
    translation of its own key, the only thing they differ in. *)
Theorem array_conditions_differ_in_name_only
  (fields_config : list FieldConfig)
  (key1 key2 : string) (d1 d2 : descriptor) :
  In (key1, d1) (array_value_conditions fields_config) ->
  In (key2, d2) (array_value_conditions fields_config) ->
  (forall that fn w,
      invoke (init d1) (fun m => m that fn w) =
      invoke (init d2) (fun m => m that fn w)) /\
  (forall args,
      invoke (inputValue d1) (fun m => m args) =
      invoke (inputValue d2) (fun m => m args)) /\
  (forall args,
      invoke (isInputValid d1) (fun m => m args) =
      invoke (isInputValid d2) (fun m => m args)) /\
  (forall dt,
      invoke (conditionName d1) (fun m => Ok (m dt)) = Ok (i18n dt key1) /\
      invoke (conditionName d2) (fun m => Ok (m dt)) = Ok (i18n dt key2)).
Proof.
  unfold array_value_conditions. cbn [In].
  intros [H1 | [H1 | [H1 | [H1 | []]]]] [H2 | [H2 | [H2 | [H2 | []]]]];
    injection H1 as <- <-; injection H2 as <- <-;
    repeat split; reflexivity.
Qed.

Lemma array_conditions_differ_in_name_only_witness :
  In ("searchBuilder.conditions.array.equals", array.equal status_fields)
     (array_value_conditions status_fields) /\
  In ("searchBuilder.conditions.array.notContains", array.notContains status_fields)
     (array_value_conditions status_fields) /\
  invoke (init (array.equal status_fields))
         (fun m => m (criteria_of (VStr "status")) updateListener empty_world) =
  invoke (init (array.notContains status_fields))
         (fun m => m (criteria_of (VStr "status")) updateListener empty_world) /\
  invoke (conditionName (array.notContains status_fields)) (fun m => Ok (m english))
    = Ok (VPrim (VStr "searchBuilder.conditions.array.notContains")).
Proof.
  assert (H1 : In ("searchBuilder.conditions.array.equals",
                   array.equal status_fields)
                  (array_value_conditions status_fields)) by (simpl; auto).
  assert (H2 : In ("searchBuilder.conditions.array.notContains",
                   array.notContains status_fields)
                  (array_value_conditions status_fields)) by (simpl; auto 6).
  destruct (array_conditions_differ_in_name_only status_fields _ _ _ _ H1 H2)
    as (Hinit & _ & _ & Hname).
  split; [exact H1|]. split; [exact H2|].
  split; [apply Hinit | apply (Hname english)].
Defined.

(* ===================================================================== *)
(** * The default sort *)
(* ===================================================================== *)

Lemma SortCompare_antisym (x y : value) :
  SortCompare y x = CompOpp (SortCompare x y).
Proof.
  unfold SortCompare.
  destruct x as [[]|], y as [[]|]; try reflexivity; apply String.compare_antisym.
Qed.

Lemma sort_le_total (x y : value) :
  sort_le x y = false -> sort_le y x = true.
Proof.
  unfold sort_le. rewrite (SortCompare_antisym x y).
  destruct (SortCompare x y); simpl; congruence.
Qed.

Lemma sort_insert_perm (x : value) (l : list value) :
  Permutation (x :: l) (sort_insert x l).
Proof.
  induction l as [|y l IH]; simpl; [reflexivity|].
  destruct (sort_le x y); [reflexivity|].
  rewrite perm_swap. apply perm_skip. exact IH.
Qed.

Lemma sort_perm (l : list value) : Permutation l (sort l).
Proof.
  induction l as [|x l IH]; simpl; [constructor|].
  rewrite <- sort_insert_perm. apply perm_skip. exact IH.
Qed.

Lemma sort_insert_sorted (x : value) (l : list value) :
  Sorted (fun a b => sort_le a b = true) l ->
  Sorted (fun a b => sort_le a b = true) (sort_insert x l).
Proof.
  induction 1 as [|y l Hsorted IH Hhd]; simpl.
  - repeat constructor.
  - destruct (sort_le x y) eqn:Hxy.
    + repeat constructor; assumption.
    + constructor; [exact IH|].
      apply sort_le_total in Hxy.
      destruct l as [|z l]; simpl.
      * constructor. exact Hxy.
      * destruct (sort_le x z); constructor; [exact Hxy|].
        inversion Hhd; assumption.
Qed.

Lemma sort_sorted (l : list value) :
  Sorted (fun a b => sort_le a b = true) (sort l).
Proof.
  induction l as [|x l IH]; simpl; [constructor|].
  apply sort_insert_sorted. exact IH.
Qed.

Lemma string_compare_trans (a b c : string) :
  String.compare a b <> Gt -> String.compare b c <> Gt -> String.compare a c <> Gt.
Proof.
  intros Hab Hbc.
  destruct (String.compare a b) eqn:Eab; [| |congruence].
  - apply OrderedTypeEx.String_as_OT.cmp_eq in Eab. subst b. exact Hbc.
  - destruct (String.compare b c) eqn:Ebc; [| |congruence].
    + apply OrderedTypeEx.String_as_OT.cmp_eq in Ebc. subst c. congruence.
    + apply OrderedTypeEx.String_as_OT.cmp_lt in Eab, Ebc.
      assert (Hac := OrderedTypeEx.String_as_OT.lt_trans _ _ _ Eab Ebc).
      apply OrderedTypeEx.String_as_OT.cmp_lt in Hac.
      unfold OrderedTypeEx.String_as_OT.cmp in Hac. congruence.
Qed.

Lemma sort_le_iff (x y : value) :
  sort_le x y = true <-> SortCompare x y <> Gt.
Proof.
  unfold sort_le. destruct (SortCompare x y); split; congruence.
Qed.

Lemma sort_le_trans (x y z : value) :
  sort_le x y = true -> sort_le y z = true -> sort_le x z = true.
Proof.
  rewrite !sort_le_iff. unfold SortCompare.
  destruct x as [[]|], y as [[]|], z as [[]|];
    try congruence; apply string_compare_trans.
Qed.

Lemma sort_strongly_sorted (l : list value) :
  StronglySorted (fun a b => sort_le a b = true) (sort l).
Proof.
  apply Sorted_StronglySorted; [|apply sort_sorted].
  intros x y z. apply sort_le_trans.
Qed.

Lemma same_key_compare (k x y : value) :
  same_key k x = true -> SortCompare x y = SortCompare k y.
Proof.
  unfold same_key, SortCompare.
  destruct k as [[]|], x as [[]|]; try discriminate; try reflexivity;
    (destruct (String.compare _ _) eqn:E; try discriminate;
     apply OrderedTypeEx.String_as_OT.cmp_eq in E; intros _;
     destruct y as [[]|]; try reflexivity; rewrite E; reflexivity).
Qed.

(** The sort is stable: items it does not tell apart keep their order. *)
Lemma sort_insert_stable (k x : value) (l : list value) :
  filter (same_key k) (sort_insert x l) = filter (same_key k) (x :: l).
Proof.
  induction l as [|y l IH]; [reflexivity|].
  cbn [sort_insert]. destruct (sort_le x y) eqn:Hxy; [reflexivity|].
  cbn [filter] in *. rewrite IH.
  destruct (same_key k x) eqn:Hkx; [|reflexivity].
  destruct (same_key k y) eqn:Hky; [|reflexivity].
  exfalso. unfold sort_le in Hxy. rewrite (same_key_compare k x y Hkx) in Hxy.
  unfold same_key in Hky. destruct (SortCompare k y); discriminate.
Qed.

Lemma sort_stable (k : value) (l : list value) :
  filter (same_key k) (sort l) = filter (same_key k) l.
Proof.
  induction l as [|x l IH]; [reflexivity|].
  cbn [sort]. rewrite sort_insert_stable. cbn [filter]. rewrite IH. reflexivity.
Qed.

(** Sorting a choice list gives a choice list: the pairs, rearranged. *)
Lemma sort_choice_list (pairs : list (value * value)) :
  exists sorted,
    sort (map pair_item pairs) = map pair_item sorted /\
    Permutation pairs sorted /\
    StronglySorted pair_le sorted.
Proof.
  destruct (Permutation_map_inv pair_item pairs
              (Permutation_sym (sort_perm (map pair_item pairs))))
    as (sorted & Heq & Hperm).
  exists sorted. split; [exact Heq|]. split; [exact Hperm|].
  assert (Hs := sort_strongly_sorted (map pair_item pairs)). rewrite Heq in Hs.
  clear Heq Hperm. induction sorted as [|p rest IH]; [constructor|].
  inversion Hs as [|? ? Hrest Hall]; subst.
  constructor; [apply IH; exact Hrest|].
  rewrite Forall_map in Hall. exact Hall.
Qed.

(* ===================================================================== *)
(** * The dropdown builder *)
(* ===================================================================== *)

(** [$('<option>').val(v).text(label)]. *)
Lemma build_option (v label : value) :
  text_set label (val_set v [createElement "option"]) = [rendered_option (v, label)].
Proof. destruct label as [[| | | |]|]; reflexivity. Qed.

Lemma rendered_option_plain (p : value * value) : plain_option (rendered_option p).
Proof.
  exists (val_string (fst p)), false, (label_nodes (snd p)).
  split; [reflexivity|]. unfold label_nodes.
  destruct (String.eqb _ _); repeat constructor.
Qed.

Lemma keep_last_unselected (l : list node) :
  Forall (fun o => is_selected o = false) l ->
  keep_last_selected l = l /\
  existsb (fun o => has_tag "option" o && is_selected o) l = false.
Proof.
  induction 1 as [|o l Ho _ [IH1 IH2]]; [split; reflexivity|].
  cbn [keep_last_selected existsb]. rewrite Ho, IH1, IH2, !andb_false_r.
  split; reflexivity.
Qed.

Lemma append_option (cls : list string) (opts : list node) (o : node) :
  Forall (fun o => is_selected o = false) opts ->
  is_selected o = false ->
  appendTo [o] [Element "select" cls [] false [] (selected_sentinel :: opts)] =
  [Element "select" cls [] false [] (selected_sentinel :: opts ++ [o])].
Proof.
  intros Hopts Ho.
  assert (Hall : Forall (fun o => is_selected o = false) (opts ++ [o])).
  { apply Forall_app. split; [exact Hopts | repeat constructor; exact Ho]. }
  destruct (keep_last_unselected _ Hall) as [Hkeep Hnone].
  unfold appendTo, reset_selectedness. cbn [map app hasAttribute getAttribute lookup_attr].
  rewrite String.eqb_refl. cbn [orb negb andb existsb].
  change (has_tag "option" selected_sentinel && is_selected selected_sentinel) with true.
  cbn [orb keep_last_selected].
  change (has_tag "option" selected_sentinel && is_selected selected_sentinel) with true.
  rewrite Hnone, Hkeep. reflexivity.
Qed.

(** The loop of the builder: it fails where an item cannot be indexed,
    and otherwise appends one option per item, in order. *)
Lemma forEach_options (cls : list string) (items : list value) :
  forall (index : nat) (opts : list node),
    Forall (fun o => is_selected o = false) opts ->
    forEach (fun item (_ : nat) input =>
               v <- get_index item 0 ;;
               label <- get_index item 1 ;;
               let option := text_set label (val_set v [createElement "option"]) in
               Ok (appendTo option input))
            items index
            [Element "select" cls [] false [] (selected_sentinel :: opts)]
    = (pairs <- item_pairs items ;;
       Ok [Element "select" cls [] false []
                   (selected_sentinel :: opts ++ map rendered_option pairs)]).
Proof.
  induction items as [|item items IH]; intros index opts Hopts.
  - cbn [forEach item_pairs bind map]. rewrite app_nil_r. reflexivity.
  - cbn [forEach item_pairs]. unfold item_pair.
    destruct (get_index item 0) as [v|e]; [|reflexivity].
    destruct (get_index item 1) as [label|e]; [|reflexivity].
    cbn [bind]. rewrite build_option, append_option by (assumption || reflexivity).
    rewrite IH.
    + destruct (item_pairs items) as [pairs|e]; [|reflexivity].
      cbn [bind map]. rewrite <- app_assoc. reflexivity.
    + apply Forall_app. split; [exact Hopts | repeat constructor].
Qed.

(** The builder, in one equation: the items of the choice set are
    sorted, each gives its pair, and the wrapper holds one select whose
    options are the sentinel and then the options of the pairs. *)
Lemma createSelectDropdown_eq (that : criteria) (values : value) :
  createSelectDropdown that values =
  (items <- Array_from values ;;
   pairs <- item_pairs (sort items) ;;
   Ok (control that [] (selected_sentinel :: map rendered_option pairs))).
Proof.
  unfold createSelectDropdown.
  destruct (Array_from values) as [items|e]; [|reflexivity].
  cbn [bind].
  change (appendTo [sentinel_option] _)
    with [Element "select" (select_classes that) [] false [] (selected_sentinel :: [])].
  rewrite forEach_options by constructor.
  destruct (item_pairs (sort items)) as [pairs|e]; reflexivity.
Qed.

Lemma item_pairs_choice_list (pairs : list (value * value)) :
  item_pairs (map pair_item pairs) = Ok pairs.
Proof.
  induction pairs as [|[v label] pairs IH]; [reflexivity|].
  cbn [map item_pairs]. unfold item_pair, pair_item at 1.
  cbn [get_index nth_error fst snd bind]. rewrite IH. reflexivity.
Qed.

(** On a choice list the builder always succeeds. *)
Lemma createSelectDropdown_choice_list (that : criteria) (pairs : list (value * value)) :
  exists sorted,
    Permutation pairs sorted /\
    StronglySorted pair_le sorted /\
    sort (map pair_item pairs) = map pair_item sorted /\
    createSelectDropdown that (choice_list pairs) =
    Ok (control that [] (selected_sentinel :: map rendered_option sorted)).
Proof.
  destruct (sort_choice_list pairs) as (sorted & Heq & Hperm & Hsorted).
  exists sorted. repeat split; try assumption.
  rewrite createSelectDropdown_eq. unfold choice_list. cbn [Array_from bind].
  rewrite Heq, item_pairs_choice_list. reflexivity.
Qed.

Lemma plain_option_tags (o : node) :
  plain_option o ->
  has_tag "option" o = true /\ has_tag "select" o = false /\
  filter (has_tag "select") (descendants o) = [] /\
  hasAttribute "disabled" o = false /\
  exists v, getAttribute "value" o = Some v /\ option_value o = v.
Proof.
  intros (v & sel & kids & -> & Hkids).
  repeat split; try reflexivity.
  - cbn [descendants]. induction Hkids as [|k kids Hk _ IH]; [reflexivity|].
    cbn [flat_map app filter]. destruct k; [|discriminate Hk].
    cbn [descendants app]. exact IH.
  - exists v. split; reflexivity.
Qed.

Lemma options_plain (cls : list string) (attrs : list (string * string))
  (s : bool) (ls : list listener) (children : list node) :
  Forall plain_option children ->
  options (Element "select" cls attrs s ls children) = children.
Proof.
  intros Hplain. unfold options. cbn [children_of].
  induction Hplain as [|o children Ho _ IH]; [reflexivity|].
  cbn [filter]. destruct (plain_option_tags o Ho) as (-> & _). rewrite IH.
  reflexivity.
Qed.

Lemma find_select_control (that : criteria) (ls : list listener) (children : list node) :
  Forall plain_option children ->
  find "select" (control that ls children) =
  [Element "select" (select_classes that) [] false [] children].
Proof.
  intros Hplain. unfold find, control.
  cbn [flat_map descendants app filter]. rewrite !app_nil_r.
  change (has_tag "select" (Element "select" _ _ _ _ _)) with true.
  cbn iota. f_equal.
  induction Hplain as [|o children Ho _ IH]; [reflexivity|].
  cbn [flat_map app filter].
  destruct (plain_option_tags o Ho) as (_ & -> & Hinside & _).
  rewrite filter_app, Hinside, IH. reflexivity.
Qed.

Lemma selected_sentinel_plain : plain_option selected_sentinel.
Proof. exists "", true, [Text "Select"]. split; [reflexivity | repeat constructor]. Qed.

Lemma rendered_options_plain (pairs : list (value * value)) :
  Forall plain_option (selected_sentinel :: map rendered_option pairs).
Proof.
  constructor; [exact selected_sentinel_plain|].
  apply Forall_map, Forall_forall. intros p _. apply rendered_option_plain.
Qed.

Lemma rendered_option_shown (p : value * value) :
  option_value (rendered_option p) = val_string (fst p) /\
  textContent (rendered_option p) = label_string (snd p).
Proof.
  split; [reflexivity|]. unfold rendered_option, label_nodes. cbn [textContent].
  destruct (String.eqb (label_string (snd p)) "") eqn:Hempty; cbn [map String.concat].
  - apply String.eqb_eq in Hempty. symmetry. exact Hempty.
  - reflexivity.
Qed.

Lemma shown_rendered (pairs : list (value * value)) :
  shown (map rendered_option pairs) =
  map (fun p => (val_string (fst p), label_string (snd p))) pairs.
Proof.
  unfold shown. rewrite map_map. apply map_ext. intros p.
  destruct (rendered_option_shown p) as [-> ->]. reflexivity.
Qed.

(** C4, as amended: for every choice list the builder returns a wrapper
    holding one single select whose first option is the sentinel, with
    empty value and label Select, followed by exactly one option per
    choice pair, in the order of the default sort of the pairs; an
    option's value is the string form of the pair's first element and its
    label the string form of the second (the elements themselves when
    they are strings). *)
Theorem createSelectDropdown_renders_choices
  (that : criteria) (pairs : list (value * value)) :
  exists (el : jq) (sel sentinel : node) (opts : list node)
         (sorted : list (value * value)),
    createSelectDropdown that (choice_list pairs) = Ok el /\
    find "select" el = [sel] /\
    hasAttribute "multiple" sel = false /\
    options sel = sentinel :: opts /\
    option_value sentinel = "" /\
    textContent sentinel = "Select" /\
    Permutation pairs sorted /\
    StronglySorted pair_le sorted /\
    map pair_item sorted = sort (map pair_item pairs) /\
    shown opts = map (fun p => (val_string (fst p), label_string (snd p))) sorted /\
    forall s : string,
      val_string (VPrim (VStr s)) = s /\ label_string (VPrim (VStr s)) = s.
Proof.
  destruct (createSelectDropdown_choice_list that pairs)
    as (sorted & Hperm & Hsorted & Hsort & Hbuilt).
  exists (control that [] (selected_sentinel :: map rendered_option sorted)),
         (Element "select" (select_classes that) [] false []
                  (selected_sentinel :: map rendered_option sorted)),
         selected_sentinel, (map rendered_option sorted), sorted.
  assert (Hplain := rendered_options_plain sorted).
  split; [exact Hbuilt|].
  split; [apply find_select_control; exact Hplain|].
  split; [reflexivity|].
  split; [apply options_plain; exact Hplain|].
  repeat split; try assumption; try reflexivity.
  - symmetry. exact Hsort.
  - apply shown_rendered.
Qed.

(** The example of the specification: b and a come out as a, then b. *)
Example createSelectDropdown_b_a :
  createSelectDropdown (criteria_of (VStr "letter"))
    (choice_list [(VPrim (VStr "b"), VPrim (VStr "B"));
                  (VPrim (VStr "a"), VPrim (VStr "A"))]) =
  Ok (control (criteria_of (VStr "letter")) []
        [selected_sentinel;
         rendered_option (VPrim (VStr "a"), VPrim (VStr "A"));
         rendered_option (VPrim (VStr "b"), VPrim (VStr "B"))]).
Proof. reflexivity. Qed.

(** C4, as stated, fails on a choice whose value is a number: the pair
    of the number 1 and the label One is rendered as an option whose
    value is the string 1, which is not the pair's first element. *)
Lemma createSelectDropdown_number_value_counterexample :
  exists (el : jq) (sel sentinel : node) (opts : list node),
    createSelectDropdown (criteria_of (VStr "level"))
      (choice_list [(VPrim (VNum 1), VPrim (VStr "One"))]) = Ok el /\
    find "select" el = [sel] /\
    options sel = sentinel :: opts /\
    shown opts = [("1", "One")] /\
    ~ options_are_pairs [(VPrim (VNum 1), VPrim (VStr "One"))] opts.
Proof.
  eexists _, _, _, _.
  split; [reflexivity|]. split; [reflexivity|]. split; [reflexivity|].
  split; [reflexivity|].
  unfold options_are_pairs. cbn. intros Hperm.
  apply Permutation_length_1_inv in Hperm. discriminate Hperm.
Qed.

(* ===================================================================== *)
(** * Controls and the user's picks *)
(* ===================================================================== *)

Section IndexWhere.

Context {A : Type} (p : A -> bool).

Lemma index_where_some (l : list A) :
  forall i, index_where p l = Some i ->
            exists x, nth_error l i = Some x /\ p x = true.
Proof.
  induction l as [|y l IH]; intros i Hi; [discriminate Hi|].
  cbn [index_where] in Hi. destruct (p y) eqn:Hy.
  - injection Hi as <-. exists y. split; [reflexivity | exact Hy].
  - destruct (index_where p l) as [j|]; [|discriminate Hi].
    injection Hi as <-. exact (IH j eq_refl).
Qed.

Lemma existsb_index_where (l : list A) :
  existsb p l = true -> exists i, index_where p l = Some i.
Proof.
  induction l as [|y l IH]; [discriminate|].
  cbn [existsb index_where]. destruct (p y); [eauto|].
  intros Hl. destruct (IH Hl) as [i ->]. eauto.
Qed.

Lemma index_where_existsb (l : list A) (i : nat) :
  index_where p l = Some i -> existsb p l = true.
Proof.
  intros Hi. destruct (index_where_some l i Hi) as (x & Hx & Hp).
  apply existsb_exists. exists x. split; [|exact Hp].
  eapply nth_error_In. exact Hx.
Qed.

End IndexWhere.

Lemma set_selected_plain (b : bool) (o : node) :
  plain_option o ->
  plain_option (set_selected b o) /\
  option_value (set_selected b o) = option_value o /\
  textContent (set_selected b o) = textContent o /\
  is_selected (set_selected b o) = b.
Proof.
  intros (v & sel & kids & -> & Hkids). repeat split; try reflexivity.
  exists v, b, kids. split; [reflexivity | exact Hkids].
Qed.

Lemma deselect_plain (children : list node) :
  Forall plain_option children ->
  Forall plain_option (map deselect children) /\
  shown (map deselect children) = shown children.
Proof.
  induction 1 as [|o children Ho _ [IH1 IH2]]; [split; constructor|].
  cbn [map]. unfold deselect at 1 3.
  destruct (plain_option_tags o Ho) as (-> & _).
  destruct (set_selected_plain false o Ho) as (Hplain & Hv & Ht & _).
  split; [constructor; assumption|].
  unfold shown in *. cbn [map]. rewrite Hv, Ht, IH2. reflexivity.
Qed.

(** A pick changes which option is selected and nothing else. *)
Lemma select_nth_plain (children : list node) :
  Forall plain_option children ->
  forall i,
    Forall plain_option (select_nth i children) /\
    shown (select_nth i children) = shown children.
Proof.
  induction 1 as [|o children Ho Hrest IH]; intros i; [split; constructor|].
  cbn [select_nth]. destruct (plain_option_tags o Ho) as (-> & _).
  destruct i as [|i].
  - destruct (set_selected_plain true o Ho) as (Hplain & Hv & Ht & _).
    destruct (deselect_plain children Hrest) as [Hall Hshown].
    split; [constructor; assumption|].
    unfold shown in *. cbn [map]. rewrite Hv, Ht, Hshown. reflexivity.
  - destruct (set_selected_plain false o Ho) as (Hplain & Hv & Ht & _).
    destruct (IH i) as [Hall Hshown].
    split; [constructor; assumption|].
    unfold shown in *. cbn [map]. rewrite Hv, Ht, Hshown. reflexivity.
Qed.

(** After a pick within range the picked option is the selected one. *)
Lemma select_nth_index (children : list node) :
  Forall plain_option children ->
  forall i, i < List.length children ->
            index_where is_selected (select_nth i children) = Some i.
Proof.
  induction 1 as [|o children Ho Hrest IH]; intros i Hi; [inversion Hi|].
  cbn [select_nth]. destruct (plain_option_tags o Ho) as (-> & _).
  destruct i as [|i]; cbn [index_where].
  - destruct (set_selected_plain true o Ho) as (_ & _ & _ & ->). reflexivity.
  - destruct (set_selected_plain false o Ho) as (_ & _ & _ & ->).
    rewrite IH by (cbn [List.length] in Hi; lia). reflexivity.
Qed.

Lemma user_pick_control (that : criteria) (ls : list listener)
  (children : list node) (i : nat) :
  Forall plain_option children ->
  map (user_pick i) (control that ls children) =
  control that ls (if (i <? List.length children)%nat
                   then select_nth i children else children).
Proof.
  intros Hplain. unfold control, user_pick, pick_option. cbn [map].
  rewrite (options_plain _ _ _ _ _ Hplain).
  change (has_tag "select" (Element "select" _ _ _ _ _)) with true.
  cbn [andb]. destruct (i <? List.length children)%nat; reflexivity.
Qed.

Lemma shown_length (a b : list node) :
  shown a = shown b -> List.length a = List.length b.
Proof.
  intros H. apply (f_equal (@List.length _)) in H.
  unfold shown in H. rewrite !length_map in H. exact H.
Qed.

(** Whatever the user has picked so far, the control is the same wrapper
    around the same options, one of which is selected. *)
Lemma after_picks_control (that : criteria) (ls : list listener) (picks : list nat) :
  forall children,
    Forall plain_option children ->
    existsb is_selected children = true ->
    exists children',
      after_picks picks (control that ls children) = control that ls children' /\
      Forall plain_option children' /\
      shown children' = shown children /\
      existsb is_selected children' = true.
Proof.
  induction picks as [|i picks IH]; intros children Hplain Hsel.
  - exists children. repeat split; assumption.
  - unfold after_picks. cbn [fold_left]. rewrite user_pick_control by exact Hplain.
    destruct (i <? List.length children)%nat eqn:Hi.
    + apply Nat.ltb_lt in Hi.
      destruct (select_nth_plain children Hplain i) as [Hplain' Hshown'].
      destruct (IH (select_nth i children) Hplain') as (children' & H1 & H2 & H3 & H4).
      { eapply index_where_existsb. apply select_nth_index; assumption. }
      exists children'. repeat split; try assumption. congruence.
    + exact (IH children Hplain Hsel).
Qed.

(** [.val()] of the select of a control is the value of its selected
    option. *)
Lemma val_control (that : criteria) (ls : list listener) (children : list node)
  (i : nat) :
  Forall plain_option children ->
  index_where is_selected children = Some i ->
  exists o,
    nth_error children i = Some o /\
    selected_option (Element "select" (select_classes that) [] false [] children)
      = Some o /\
    val (find "select" (control that ls children)) = VPrim (VStr (option_value o)).
Proof.
  intros Hplain Hi.
  destruct (index_where_some is_selected children i Hi) as (o & Ho & _).
  exists o. split; [exact Ho|].
  assert (Hsel : selected_option
                   (Element "select" (select_classes that) [] false [] children)
                 = Some o).
  { unfold selected_option, selectedIndex.
    rewrite (options_plain _ _ _ _ _ Hplain), Hi. exact Ho. }
  split; [exact Hsel|].
  rewrite find_select_control by exact Hplain.
  unfold val, select_val. rewrite Hsel.
  change (has_tag "select" (Element "select" _ _ _ _ _)) with true.
  cbn iota. cbn [hasAttribute getAttribute lookup_attr].
  assert (Hplain_o : plain_option o).
  { rewrite Forall_forall in Hplain. apply Hplain. eapply nth_error_In. exact Ho. }
  unfold option_enabled.
  destruct (plain_option_tags o Hplain_o) as (_ & _ & _ & -> & _). reflexivity.
Qed.

Lemma greater_than_length (s : string) :
  greater_than (VPrim (VNum (Z.of_nat (String.length s)))) 0 =
  negb (String.eqb s "").
Proof.
  unfold greater_than, ToNumber, number_gt. cbn [Z.leb Z.compare].
  change (10 ^ 0)%Z with 1%Z. rewrite Z.mul_1_r.
  destruct s as [|c s]; [reflexivity|].
  cbn [String.length String.eqb negb]. apply Z.ltb_lt. lia.
Qed.

(** What [init] of an array condition returns, when it returns. *)
Lemma array_init_control (fields_config : list FieldConfig)
  (key : string) (d : descriptor) (that : criteria) (fn : callback)
  (w w' : world) (el : jq) :
  In (key, d) (array_value_conditions fields_config) ->
  invoke (init d) (fun m => m that fn w) = Ok (RetControl el, w') ->
  exists pairs,
    w' = w /\
    el = control that [{| on_type := "change"; on_fn := fn; on_that := that |}]
                 (selected_sentinel :: map rendered_option pairs).
Proof.
  unfold array_value_conditions. cbn [In].
  intros [H | [H | [H | [H | []]]]]; injection H as <- <-;
    cbn [invoke init array.equal array.notEqual array.contains array.notContains];
    rewrite createSelectDropdown_eq;
    destruct (Array_from _) as [items|e]; try discriminate;
    cbn [bind]; destruct (item_pairs _) as [pairs|e]; try discriminate;
    cbn [bind]; intros Hinit; injection Hinit as <- <-;
    exists pairs; split; reflexivity.
Qed.

Lemma array_methods (fields_config : list FieldConfig)
  (key : string) (d : descriptor) (args : list arg) :
  In (key, d) (array_value_conditions fields_config) ->
  invoke (inputValue d) (fun m => m args) =
    (q <- jQuery_first (parameter 0 args) ;; Ok (val (find "select" q))) /\
  invoke (isInputValid d) (fun m => m args) =
    (q <- jQuery_first (parameter 0 args) ;;
     len <- length_of (val (find "select" q)) ;;
     Ok (VPrim (VBool (greater_than len 0)))).
Proof.
  unfold array_value_conditions. cbn [In].
  intros [H | [H | [H | [H | []]]]]; injection H as <- <-; split; reflexivity.
Qed.

(* ===================================================================== *)
(** * The array conditions on their control *)
(* ===================================================================== *)

(** C2: for every control returned by the [init] of an array condition,
    whatever the user has picked since, the select has a selected option
    and [isInputValid] returns false exactly when that option's value is
    the empty string, and true otherwise. *)
Theorem array_isInputValid_iff_value_selected
  (fields_config : list FieldConfig) (key : string) (d : descriptor)
  (that : criteria) (fn : callback) (w w' : world) (el : jq)
  (picks : list nat) (rest : list arg) :
  In (key, d) (array_value_conditions fields_config) ->
  invoke (init d) (fun m => m that fn w) = Ok (RetControl el, w') ->
  exists sel o,
    find "select" (after_picks picks el) = [sel] /\
    selected_option sel = Some o /\
    invoke (isInputValid d)
           (fun m => m (ArgControls [after_picks picks el] :: rest))
      = Ok (VPrim (VBool (negb (String.eqb (option_value o) "")))).
Proof.
  intros Hd Hinit.
  destruct (array_init_control _ _ _ _ _ _ _ _ Hd Hinit) as (pairs & _ & ->).
  destruct (after_picks_control that
              [{| on_type := "change"; on_fn := fn; on_that := that |}] picks
              (selected_sentinel :: map rendered_option pairs)
              (rendered_options_plain pairs) eq_refl)
    as (children & -> & Hplain & _ & Hsel).
  destruct (existsb_index_where is_selected children Hsel) as [i Hi].
  destruct (val_control that
              [{| on_type := "change"; on_fn := fn; on_that := that |}]
              children i Hplain Hi) as (o & _ & Ho & Hval).
  exists (Element "select" (select_classes that) [] false [] children), o.
  split; [apply find_select_control; exact Hplain|].
  split; [exact Ho|].
  destruct (array_methods fields_config key d
              (ArgControls [control that
                 [{| on_type := "change"; on_fn := fn; on_that := that |}]
                 children] :: rest) Hd) as [_ ->].
  cbn [parameter nth jQuery_first bind]. rewrite Hval.
  cbn [length_of bind]. rewrite greater_than_length. reflexivity.
Qed.

Lemma array_isInputValid_iff_value_selected_witness :
  exists sel o,
    find "select"
         (after_picks [2]
            (control (criteria_of (VStr "status"))
               [{| on_type := "change"; on_fn := updateListener;
                   on_that := criteria_of (VStr "status") |}]
               [selected_sentinel;
                rendered_option (VPrim (VStr "0"), VPrim (VStr "Inactive"));
                rendered_option (VPrim (VStr "1"), VPrim (VStr "Active"))]))
      = [sel] /\
    selected_option sel = Some o /\
    invoke (isInputValid (array.contains status_fields))
           (fun m => m [ArgControls
              [after_picks [2]
                 (control (criteria_of (VStr "status"))
                    [{| on_type := "change"; on_fn := updateListener;
                        on_that := criteria_of (VStr "status") |}]
                    [selected_sentinel;
                     rendered_option (VPrim (VStr "0"), VPrim (VStr "Inactive"));
                     rendered_option (VPrim (VStr "1"), VPrim (VStr "Active"))])];
              ArgCriteria (criteria_of (VStr "status"))])
      = Ok (VPrim (VBool (negb (String.eqb (option_value o) "")))).
Proof.
  apply (array_isInputValid_iff_value_selected status_fields
           "searchBuilder.conditions.array.contains"
           (array.contains status_fields)
           (criteria_of (VStr "status")) updateListener empty_world empty_world).
  - simpl. auto.
  - reflexivity.
Defined.

(** A change of the selection calls [fn(that, this)] with the wrapper as
    [this]. *)
Example array_change_calls_fn :
  exists wrapper,
    invoke (init (array.equal status_fields))
           (fun m => m (criteria_of (VStr "status")) updateListener empty_world)
      = Ok (RetControl [wrapper], empty_world) /\
    trace (dispatch_change (user_pick 2 wrapper) empty_world) =
      [CallFn updateListener (criteria_of (VStr "status")) (user_pick 2 wrapper)].
Proof. eexists. split; reflexivity. Qed.

(** The two states of a control: nothing chosen, then a choice. *)
Example array_isInputValid_states :
  exists el,
    invoke (init (array.equal status_fields))
           (fun m => m (criteria_of (VStr "status")) updateListener empty_world)
      = Ok (RetControl el, empty_world) /\
    invoke (isInputValid (array.equal status_fields))
           (fun m => m [ArgControls [el]]) = Ok (VPrim (VBool false)) /\
    invoke (isInputValid (array.equal status_fields))
           (fun m => m [ArgControls [after_picks [0; 2] el]])
      = Ok (VPrim (VBool true)) /\
    invoke (inputValue (array.equal status_fields))
           (fun m => m [ArgControls [after_picks [0; 2] el]])
      = Ok (VPrim (VStr "1")) /\
    invoke (isInputValid (array.equal status_fields))
           (fun m => m [ArgControls [after_picks [0; 2; 0] el]])
      = Ok (VPrim (VBool false)).
Proof. eexists. repeat split; reflexivity. Qed.

Lemma nth_error_shown (a b : list node) (i : nat) (o : node) :
  shown a = shown b -> nth_error a i = Some o ->
  exists o', nth_error b i = Some o' /\ option_value o' = option_value o.
Proof.
  intros Hshown Ho. unfold shown in Hshown.
  apply (map_nth_error (fun o => (option_value o, textContent o))) in Ho.
  rewrite Hshown, nth_error_map in Ho.
  destruct (nth_error b i) as [o'|]; [|discriminate Ho].
  exists o'. split; [reflexivity|]. cbn in Ho. congruence.
Qed.

(** C3, as amended: for every choice list and every pair of it, the
    dropdown has an option built from the pair, and once the user picks
    it [inputValue] returns the string form of the pair's value: the
    value itself when it is a string. *)
Theorem array_inputValue_of_picked_choice
  (fields_config : list FieldConfig) (key : string) (d : descriptor)
  (that : criteria) (fn : callback) (w : world)
  (pairs : list (value * value)) :
  In (key, d) (array_value_conditions fields_config) ->
  get_field_choices (s_origData that) fields_config = choice_list pairs ->
  exists el sel,
    invoke (init d) (fun m => m that fn w) = Ok (RetControl el, w) /\
    find "select" el = [sel] /\
    forall v label,
      In (v, label) pairs ->
      exists i,
        nth_error (options sel) i = Some (rendered_option (v, label)) /\
        (forall (picks : list nat) (rest : list arg),
            invoke (inputValue d)
                   (fun m => m (ArgControls
                                  [map (user_pick i) (after_picks picks el)] :: rest))
              = Ok (VPrim (VStr (val_string v)))) /\
        (forall s, v = VPrim (VStr s) -> val_string v = s).
Proof.
  intros Hd Hchoices.
  destruct (createSelectDropdown_choice_list that pairs)
    as (sorted & Hperm & _ & _ & Hbuilt).
  set (ls := [{| on_type := "change"; on_fn := fn; on_that := that |}]).
  set (children := selected_sentinel :: map rendered_option sorted).
  assert (Hplain : Forall plain_option children) by apply rendered_options_plain.
  exists (control that ls children),
         (Element "select" (select_classes that) [] false [] children).
  split.
  { unfold array_value_conditions in Hd. cbn [In] in Hd.
    destruct Hd as [H | [H | [H | [H | []]]]]; injection H as <- <-;
      cbn [invoke init array.equal array.notEqual array.contains array.notContains];
      rewrite Hchoices, Hbuilt; reflexivity. }
  split; [apply find_select_control; exact Hplain|].
  intros v label Hin.
  apply (Permutation_in _ Hperm) in Hin.
  destruct (In_nth_error _ _ Hin) as [k Hk].
  assert (Hopt : nth_error children (S k) = Some (rendered_option (v, label))).
  { unfold children. cbn [nth_error]. apply map_nth_error. exact Hk. }
  exists (S k). split.
  { rewrite (options_plain _ _ _ _ _ Hplain). exact Hopt. }
  split; [|intros s ->; reflexivity].
  intros picks rest.
  destruct (after_picks_control that ls picks children Hplain eq_refl)
    as (children' & -> & Hplain' & Hshown & _).
  assert (Hlen : S k < List.length children').
  { rewrite (shown_length _ _ Hshown). apply nth_error_Some. congruence. }
  rewrite user_pick_control by exact Hplain'.
  apply Nat.ltb_lt in Hlen. rewrite Hlen. cbv iota. apply Nat.ltb_lt in Hlen.
  destruct (select_nth_plain children' Hplain' (S k)) as [Hplain'' Hshown''].
  destruct (val_control that ls (select_nth (S k) children') (S k) Hplain''
              (select_nth_index children' Hplain' (S k) Hlen))
    as (o & Ho & _ & Hval).
  destruct (nth_error_shown _ children _ _ (eq_trans Hshown'' Hshown) Ho)
    as (o' & Ho' & Hvalue).
  rewrite Hopt in Ho'. injection Ho' as <-.
  rewrite (proj1 (array_methods fields_config key d _ Hd)).
  cbn [parameter nth jQuery_first bind]. rewrite Hval, <- Hvalue. reflexivity.
Qed.

Lemma array_inputValue_of_picked_choice_witness :
  exists el sel,
    invoke (init (array.notEqual status_fields))
           (fun m => m (criteria_of (VStr "status")) updateListener empty_world)
      = Ok (RetControl el, empty_world) /\
    find "select" el = [sel] /\
    forall v label,
      In (v, label) [(VPrim (VStr "1"), VPrim (VStr "Active"));
                     (VPrim (VStr "0"), VPrim (VStr "Inactive"))] ->
      exists i,
        nth_error (options sel) i = Some (rendered_option (v, label)) /\
        (forall (picks : list nat) (rest : list arg),
            invoke (inputValue (array.notEqual status_fields))
                   (fun m => m (ArgControls
                                  [map (user_pick i) (after_picks picks el)] :: rest))
              = Ok (VPrim (VStr (val_string v)))) /\
        (forall s, v = VPrim (VStr s) -> val_string v = s).
Proof.
  apply (array_inputValue_of_picked_choice status_fields
           "searchBuilder.conditions.array.not" (array.notEqual status_fields)
           (criteria_of (VStr "status")) updateListener empty_world
           [(VPrim (VStr "1"), VPrim (VStr "Active"));
            (VPrim (VStr "0"), VPrim (VStr "Inactive"))]).
  - simpl. auto.
  - reflexivity.
Defined.

(** C3, as stated, fails on a choice whose value is a number: after the
    user picks the option built from the pair of the number 1 and the
    label One, [inputValue] returns the string 1, not the number. *)
Lemma array_inputValue_number_counterexample :
  exists el sel,
    invoke (init (array.equal level_fields))
           (fun m => m (criteria_of (VStr "level")) updateListener empty_world)
      = Ok (RetControl el, empty_world) /\
    find "select" el = [sel] /\
    nth_error (options sel) 1
      = Some (rendered_option (VPrim (VNum 1), VPrim (VStr "One"))) /\
    invoke (inputValue (array.equal level_fields))
           (fun m => m [ArgControls [map (user_pick 1) el]])
      = Ok (VPrim (VStr "1")) /\
    invoke (inputValue (array.equal level_fields))
           (fun m => m [ArgControls [map (user_pick 1) el]])
      <> Ok (VPrim (VNum 1)).
Proof.
  eexists _, _.
  split; [reflexivity|]. split; [reflexivity|]. split; [reflexivity|].
  split; [reflexivity | discriminate].
Qed.

(* ===================================================================== *)
(** * A field without an entry *)
(* ===================================================================== *)

(** C5, as amended: for a field name that matches no entry of the field
    list, the lookup gives undefined, on which the dropdown builder and
    with it the [init] of every array condition raise a TypeError: no
    control is returned.  The dropdown holding only the sentinel is what
    the builder makes of an empty choice list. *)
Theorem array_init_unmatched_field_throws
  (fields_config : list FieldConfig) (key : string) (d : descriptor)
  (that : criteria) (fn : callback) (w : world) :
  In (key, d) (array_value_conditions fields_config) ->
  Forall (misses (s_origData that)) fields_config ->
  get_field_choices (s_origData that) fields_config = VPrim VUndefined /\
  createSelectDropdown that (VPrim VUndefined) = Throw TypeError /\
  invoke (init d) (fun m => m that fn w) = Throw TypeError /\
  createSelectDropdown that (VArr []) = Ok (control that [] [selected_sentinel]).
Proof.
  intros Hd Hmiss.
  assert (Hlookup := get_field_choices_none _ _ Hmiss).
  split; [exact Hlookup|]. split; [reflexivity|]. split; [|reflexivity].
  unfold array_value_conditions in Hd. cbn [In] in Hd.
  destruct Hd as [H | [H | [H | [H | []]]]]; injection H as <- <-;
    cbn [invoke init array.equal array.notEqual array.contains array.notContains];
    rewrite Hlookup; reflexivity.
Qed.

Lemma array_init_unmatched_field_throws_witness :
  get_field_choices (VStr "missing") status_fields = VPrim VUndefined /\
  createSelectDropdown (criteria_of (VStr "missing")) (VPrim VUndefined)
    = Throw TypeError /\
  invoke (init (array.equal status_fields))
         (fun m => m (criteria_of (VStr "missing")) updateListener empty_world)
    = Throw TypeError /\
  createSelectDropdown (criteria_of (VStr "missing")) (VArr [])
    = Ok (control (criteria_of (VStr "missing")) [] [selected_sentinel]).
Proof.
  apply (array_init_unmatched_field_throws status_fields
           "searchBuilder.conditions.array.equals" (array.equal status_fields)
           (criteria_of (VStr "missing")) updateListener empty_world).
  - simpl. auto.
  - repeat constructor.
Defined.

(** C5, as stated, fails: for the field named missing, which the field
    list does not have, [init] does not complete; it throws, and no
    dropdown is returned. *)
Lemma array_init_unmatched_field_counterexample :
  Forall (misses (VStr "missing")) status_fields /\
  invoke (init (array.equal status_fields))
         (fun m => m (criteria_of (VStr "missing")) updateListener empty_world)
    = Throw TypeError /\
  ~ exists el w',
      invoke (init (array.equal status_fields))
             (fun m => m (criteria_of (VStr "missing")) updateListener empty_world)
      = Ok (RetControl el, w').
Proof.
  split; [repeat constructor|]. split; [reflexivity|].
  intros (el & w' & H). discriminate H.
Qed.

(* ===================================================================== *)
(** * Further properties: the registry *)
(* ===================================================================== *)

(** X1: every condition the registry holds is of one of three kinds: one
    of the four array conditions with a dropdown, a condition of a
    string, number or date column left to the widget (the empty object),
    or a condition without input; and its data type is one of the five. *)
Theorem registered_condition_kinds
  (T C : string) (f : factory) (fields_config : list FieldConfig) :
  condition_factory T C = Some f ->
  In T data_types /\
  ((T = "array" /\
    exists key, In (key, f fields_config) (array_value_conditions fields_config))
   \/ (In T deferred_types /\ f fields_config = empty_object)
   \/ (exists key, f fields_config = noInputCondition key)).
Proof.
  intros Hf. unfold condition_factory in Hf.
  cbn [get_property SearchBuilderConditions] in Hf.
  walk_conditions Hf T; try discriminate Hf; subst T;
    cbn [get_property] in Hf; walk_conditions Hf C;
    try discriminate Hf; injection Hf as <-; subst C;
    (split; [simpl; tauto|]);
    solve [ left; split; [reflexivity | eexists; simpl; eauto 8]
          | right; left; split; [simpl; tauto | reflexivity]
          | right; right; eexists; reflexivity ].
Qed.

Lemma registered_condition_kinds_witness :
  condition_factory "boolean" "true" = Some (no_input "starlette-admin.conditions.true") /\
  In "boolean" data_types.
Proof.
  split; [reflexivity|].
  apply (registered_condition_kinds "boolean" "true"
           (no_input "starlette-admin.conditions.true") status_fields eq_refl).
Defined.

(** X2: every data type has the conditions empty and notEmpty, and they
    need no input: [isInputValid] is true and [inputValue] undefined on
    any arguments.  Their name is translated from a key that is the same
    for string, number, date and boolean columns, and another for array
    columns. *)
Theorem empty_conditions_need_no_input
  (T C : string) (fields_config : list FieldConfig) (args : list arg) (dt : dt_api) :
  In T data_types ->
  In C ["empty"; "notEmpty"] ->
  exists f,
    condition_factory T C = Some f /\
    invoke (isInputValid (f fields_config)) (fun m => m args) = Ok (VPrim (VBool true)) /\
    invoke (inputValue (f fields_config)) (fun m => m args) = Ok (VPrim VUndefined) /\
    invoke (conditionName (f fields_config)) (fun m => Ok (m dt)) =
      Ok (i18n dt ((if String.eqb T "array"
                    then "searchBuilder.conditions.array."
                    else "starlette-admin.conditions.") ++ C)).
Proof.
  unfold data_types. cbn [In].
  intros [<- | [<- | [<- | [<- | [<- | []]]]]] [<- | [<- | []]];
    eexists; repeat split; reflexivity.
Qed.

Lemma empty_conditions_need_no_input_witness :
  exists f,
    condition_factory "date" "notEmpty" = Some f /\
    invoke (isInputValid (f status_fields)) (fun m => m []) = Ok (VPrim (VBool true)) /\
    invoke (inputValue (f status_fields)) (fun m => m []) = Ok (VPrim VUndefined) /\
    invoke (conditionName (f status_fields)) (fun m => Ok (m english)) =
      Ok (VPrim (VStr "starlette-admin.conditions.notEmpty")).
Proof.
  apply (empty_conditions_need_no_input "date" "notEmpty" status_fields [] english).
  - simpl. tauto.
  - simpl. tauto.
Defined.

(* ===================================================================== *)
(** * Further properties: the choice lookup *)
(* ===================================================================== *)

(** X3: the lookup in two lists put end to end is the lookup in the first
    when the first has an entry that matches, and the lookup in the second
    otherwise. *)
Theorem get_field_choices_app
  (field_name : prim) (first second : list FieldConfig) :
  get_field_choices field_name (first ++ second) =
  if existsb (fun e => loose_eq (name e) field_name) first
  then get_field_choices field_name first
  else get_field_choices field_name second.
Proof.
  induction first as [|item first IH]; [reflexivity|].
  cbn [app get_field_choices existsb].
  destruct (loose_eq (name item) field_name); [reflexivity | exact IH].
Qed.

Lemma loose_eq_same_type (x y : prim) :
  typeof x = typeof y -> loose_eq x y = strict_eq x y.
Proof. destruct x, y; simpl; intros H; try reflexivity; discriminate H. Qed.

(** X4: when every entry's name is of the type of the queried name, the
    coercions of [==] never come into play: the lookup is what it would be
    with [===]. *)
Theorem get_field_choices_same_type
  (field_name : prim) (fields_config : list FieldConfig) :
  Forall (fun e => typeof (name e) = typeof field_name) fields_config ->
  get_field_choices field_name fields_config =
  get_field_choices_strict field_name fields_config.
Proof.
  induction 1 as [|item rest Hitem _ IH]; [reflexivity|].
  cbn [get_field_choices get_field_choices_strict].
  rewrite (loose_eq_same_type _ _ Hitem), IH. reflexivity.
Qed.

Lemma get_field_choices_same_type_witness :
  get_field_choices (VStr "status") status_fields =
  get_field_choices_strict (VStr "status") status_fields.
Proof.
  apply (get_field_choices_same_type (VStr "status") status_fields).
  repeat constructor.
Defined.

Lemma loose_eq_nullish (x q : prim) :
  nullish_prim q = true -> loose_eq x q = nullish_prim x.
Proof. destruct q; try discriminate; destruct x; reflexivity. Qed.

(** X5: a queried name that is undefined or null (a column without a data
    source) matches the entries whose name is undefined or null, either
    of the two, and no other: the lookup gives the choices of the first
    such entry. *)
Theorem get_field_choices_nullish_query
  (field_name : prim) (fields_config : list FieldConfig) :
  nullish_prim field_name = true ->
  get_field_choices field_name fields_config =
  match List.find (fun e => nullish_prim (name e)) fields_config with
  | Some e => choices e
  | None => VPrim VUndefined
  end.
Proof.
  intros Hq. induction fields_config as [|item rest IH]; [reflexivity|].
  cbn [get_field_choices List.find]. rewrite (loose_eq_nullish _ _ Hq).
  destruct (nullish_prim (name item)); [reflexivity | exact IH].
Qed.

Lemma get_field_choices_nullish_query_witness :
  get_field_choices VUndefined
    ({| name := VStr "status"; choices := status_choices |}
       :: {| name := VNull; choices := VArr [] |} :: nil) = VArr [].
Proof.
  apply (get_field_choices_nullish_query VUndefined
           ({| name := VStr "status"; choices := status_choices |}
              :: {| name := VNull; choices := VArr [] |} :: nil) eq_refl).
Defined.

(* ===================================================================== *)
(** * Further properties: the dropdown builder *)
(* ===================================================================== *)

Lemma item_pair_nullish (item : value) :
  if nullish item then item_pair item = Throw TypeError
  else exists p, item_pair item = Ok p.
Proof.
  unfold item_pair. destruct item as [[| | | |]|]; cbn [nullish nullish_prim get_index bind];
    try reflexivity; eexists; reflexivity.
Qed.

Lemma item_pairs_nullish (items : list value) :
  if existsb nullish items then item_pairs items = Throw TypeError
  else exists pairs,
      item_pairs items = Ok pairs /\ List.length pairs = List.length items.
Proof.
  induction items as [|item items IH]; [exists []; split; reflexivity|].
  cbn [existsb item_pairs]. assert (Hitem := item_pair_nullish item).
  destruct (nullish item); cbn [orb].
  - rewrite Hitem. reflexivity.
  - destruct Hitem as [p ->]. cbn [bind].
    destruct (existsb nullish items).
    + rewrite IH. reflexivity.
    + destruct IH as (pairs & -> & Hlen). exists (p :: pairs).
      split; [reflexivity|]. cbn [List.length]. rewrite Hlen. reflexivity.
Qed.

Lemma existsb_perm {A : Type} (p : A -> bool) (l l' : list A) :
  Permutation l l' -> existsb p l = existsb p l'.
Proof.
  intros Hperm. destruct (existsb p l') eqn:H'.
  - apply existsb_exists in H'. destruct H' as (x & Hx & Hp).
    apply existsb_exists. exists x. split; [|exact Hp].
    apply (Permutation_in _ (Permutation_sym Hperm) Hx).
  - destruct (existsb p l) eqn:H; [|reflexivity].
    apply existsb_exists in H. destruct H as (x & Hx & Hp).
    rewrite <- H'. symmetry. apply existsb_exists. exists x.
    split; [exact (Permutation_in _ Hperm Hx) | exact Hp].
Qed.

(** X6: the builder throws exactly on a choice set that is undefined or
    null and on one that holds an undefined or null item; on every other
    choice set it returns a wrapper whose one select holds the sentinel
    and one option per item. *)
Theorem createSelectDropdown_throws_or_counts (that : criteria) (values : value) :
  match Array_from values with
  | Throw _ =>
      nullish values = true /\
      createSelectDropdown that values = Throw TypeError
  | Ok items =>
      nullish values = false /\
      if existsb nullish items
      then createSelectDropdown that values = Throw TypeError
      else exists el sel,
          createSelectDropdown that values = Ok el /\
          find "select" el = [sel] /\
          List.length (options sel) = S (List.length items)
  end.
Proof.
  rewrite createSelectDropdown_eq.
  destruct values as [[| | | |]|]; cbn [Array_from nullish nullish_prim bind];
    (split; [reflexivity|]); try reflexivity;
    match goal with
    | |- context [existsb nullish ?items] =>
        assert (Hpairs := item_pairs_nullish (sort items));
        rewrite <- (existsb_perm nullish _ _ (sort_perm items)) in Hpairs;
        destruct (existsb nullish items);
        [ rewrite Hpairs; reflexivity
        | destruct Hpairs as (pairs & -> & Hlen); cbn [bind];
          eexists _, _; split; [reflexivity|];
          split; [apply find_select_control, rendered_options_plain|];
          rewrite (options_plain _ _ _ _ _ (rendered_options_plain pairs));
          cbn [List.length]; rewrite length_map, Hlen;
          rewrite <- (Permutation_length (sort_perm items)); reflexivity ]
    end.
Qed.

(** The character of a string at an index, as [s[i]] gives it. *)
Lemma get_index_substring (s : string) :
  forall i : nat,
    exists c, get_index (VPrim (VStr s)) i = Ok c /\
              val_string c = substring i 1 s /\
              label_string c = substring i 1 s.
Proof.
  induction s as [|a s IH]; intros i.
  - exists (VPrim VUndefined). destruct i; repeat split.
  - destruct i as [|i].
    + exists (VPrim (VStr (String a ""))). split; [reflexivity|].
      cbn. destruct s; split; reflexivity.
    + destruct (IH i) as (c & Hc & Hv & Hl). exists c.
      split; [exact Hc | split; assumption].
Qed.

Lemma item_pairs_strings (names : list string) :
  exists pairs,
    item_pairs (map (fun s => VPrim (VStr s)) names) = Ok pairs /\
    map (fun p => (val_string (fst p), label_string (snd p))) pairs =
    map (fun s => (substring 0 1 s, substring 1 1 s)) names.
Proof.
  induction names as [|s names (pairs & Hpairs & Hshown)].
  - exists []. split; reflexivity.
  - destruct (get_index_substring s 0) as (v & Hv & Hv1 & _).
    destruct (get_index_substring s 1) as (l & Hl & _ & Hl1).
    exists ((v, l) :: pairs). cbn [map item_pairs]. unfold item_pair.
    rewrite Hv, Hl. cbn [bind]. rewrite Hpairs. cbn [bind fst snd map].
    rewrite Hv1, Hl1, Hshown. split; reflexivity.
Qed.

(** X7: a choice that is a plain string, not a pair, is read by its
    characters: its option has the first character as value and the
    second as label (the empty string where the character is missing);
    the options are in the order of the strings. *)
Theorem createSelectDropdown_string_items (that : criteria) (names : list string) :
  exists (el : jq) (sel sentinel : node) (opts : list node) (sorted : list string),
    createSelectDropdown that (VArr (map (fun s => VPrim (VStr s)) names)) = Ok el /\
    find "select" el = [sel] /\
    options sel = sentinel :: opts /\
    Permutation names sorted /\
    StronglySorted (fun a b => String.compare a b <> Gt) sorted /\
    shown opts = map (fun s => (substring 0 1 s, substring 1 1 s)) sorted.
Proof.
  set (items := map (fun s => VPrim (VStr s)) names).
  destruct (Permutation_map_inv (fun s => VPrim (VStr s)) names
              (Permutation_sym (sort_perm items)))
    as (sorted & Hsorted & Hperm).
  destruct (item_pairs_strings sorted) as (pairs & Hpairs & Hshown).
  exists (control that [] (selected_sentinel :: map rendered_option pairs)),
         (Element "select" (select_classes that) [] false []
                  (selected_sentinel :: map rendered_option pairs)),
         selected_sentinel, (map rendered_option pairs), sorted.
  assert (Hplain := rendered_options_plain pairs).
  split.
  { rewrite createSelectDropdown_eq. cbn [Array_from bind].
    fold items. rewrite Hsorted, Hpairs. reflexivity. }
  split; [apply find_select_control; exact Hplain|].
  split; [apply options_plain; exact Hplain|].
  split; [exact Hperm|].
  split; [|rewrite shown_rendered; exact Hshown].
  assert (Hs := sort_strongly_sorted items). rewrite Hsorted in Hs.
  clear - Hs. induction sorted as [|s sorted IH]; [constructor|].
  cbn [map] in Hs. inversion Hs as [|? ? Hrest Hall]; subst.
  constructor; [apply IH; exact Hrest|].
  rewrite Forall_map in Hall. revert Hall. apply Forall_impl.
  intros t. rewrite sort_le_iff. cbn [SortCompare ToString]. auto.
Qed.

Example createSelectDropdown_plain_strings :
  exists el sel,
    createSelectDropdown (criteria_of (VStr "status"))
      (VArr [VPrim (VStr "inactive"); VPrim (VStr "active")]) = Ok el /\
    find "select" el = [sel] /\
    shown (options sel) = [("", "Select"); ("a", "c"); ("i", "n")].
Proof. eexists _, _. repeat split; reflexivity. Qed.

Lemma add_class_spec (cls : list string) (c : string) :
  (forall x, In x (add_class cls c) <-> In x cls \/ x = c) /\
  (NoDup cls -> NoDup (add_class cls c)).
Proof.
  unfold add_class. destruct (existsb (String.eqb c) cls) eqn:Hc.
  - apply existsb_exists in Hc. destruct Hc as (y & Hy & Heq).
    apply String.eqb_eq in Heq. subst y.
    split; [|auto]. intros x. split; [auto|]. intros [H | ->]; assumption.
  - split.
    + intros x. rewrite in_app_iff. cbn [In]. intuition congruence.
    + intros Hnodup. apply NoDup_app; [exact Hnodup | repeat constructor; auto|].
      intros x Hx [-> | []].
      assert (Hex : existsb (String.eqb x) cls = true).
      { apply existsb_exists. exists x. split; [exact Hx | apply String.eqb_refl]. }
      congruence.
Qed.

Lemma add_classes_spec (names : list string) :
  forall cls,
    (forall x, In x (fold_left add_class names cls) <-> In x cls \/ In x names) /\
    (NoDup cls -> NoDup (fold_left add_class names cls)).
Proof.
  induction names as [|c names IH]; intros cls; cbn [fold_left In].
  - split; [intuition | auto].
  - destruct (IH (add_class cls c)) as [Hin Hnodup].
    destruct (add_class_spec cls c) as [Hin1 Hnodup1].
    split.
    + intros x. rewrite Hin, Hin1. intuition congruence.
    + auto.
Qed.

(** X8: the select of every dropdown the builder returns carries the
    class names of the widget's style table and the five fixed ones,
    nothing else, and none of them twice. *)
Theorem createSelectDropdown_classes
  (that : criteria) (values : value) (el : jq) :
  createSelectDropdown that values = Ok el ->
  exists (cls : list string) (children : list node),
    find "select" el = [Element "select" cls [] false [] children] /\
    NoDup cls /\
    forall c, In c cls <->
              In c (words (classes_value that)) \/
              In c (words (classes_input that)) \/
              In c fixed_classes.
Proof.
  rewrite createSelectDropdown_eq.
  destruct (Array_from values) as [items|e]; [|discriminate].
  cbn [bind]. destruct (item_pairs (sort items)) as [pairs|e]; [|discriminate].
  cbn [bind]. intros H. injection H as <-.
  exists (select_classes that), (selected_sentinel :: map rendered_option pairs).
  split; [apply find_select_control, rendered_options_plain|].
  unfold select_classes.
  change (words "dtsb-value dtsb-dropDown form-select dtsb-italic dtsb-greyscale")
    with fixed_classes.
  split.
  - repeat apply add_classes_spec. constructor.
  - intros c. rewrite !(proj1 (add_classes_spec _ _)). cbn [In]. tauto.
Qed.

Lemma createSelectDropdown_classes_witness :
  exists (cls : list string) (children : list node),
    find "select"
         (control (criteria_of (VStr "status")) [] [selected_sentinel])
      = [Element "select" cls [] false [] children] /\
    NoDup cls /\
    forall c, In c cls <->
              In c (words "dtsb-value") \/ In c (words "dtsb-input") \/
              In c fixed_classes.
Proof.
  apply (createSelectDropdown_classes (criteria_of (VStr "status")) (VArr [])
           (control (criteria_of (VStr "status")) [] [selected_sentinel])).
  reflexivity.
Defined.

Lemma shown_key_rendered (p : value * value) :
  shown_key (rendered_option p) = ToString (pair_item p).
Proof.
  unfold shown_key. destruct (rendered_option_shown p) as [-> ->].
  destruct p as [v l]. cbn [fst snd pair_item ToString map join].
  destruct v as [[| | | |]|], l as [[| | | |]|]; reflexivity.
Qed.

(** X9: the options after the sentinel stand in the order of the strings
    they show, value, comma, label, compared code unit by code unit; so
    choices are ordered as text, not as numbers. *)
Theorem createSelectDropdown_options_in_text_order
  (that : criteria) (pairs : list (value * value)) :
  exists (el : jq) (sel sentinel : node) (opts : list node),
    createSelectDropdown that (choice_list pairs) = Ok el /\
    find "select" el = [sel] /\
    options sel = sentinel :: opts /\
    List.length opts = List.length pairs /\
    StronglySorted
      (fun a b => String.compare (shown_key a) (shown_key b) <> Gt) opts.
Proof.
  destruct (createSelectDropdown_choice_list that pairs)
    as (sorted & Hperm & Hsorted & _ & Hbuilt).
  exists (control that [] (selected_sentinel :: map rendered_option sorted)),
         (Element "select" (select_classes that) [] false []
                  (selected_sentinel :: map rendered_option sorted)),
         selected_sentinel, (map rendered_option sorted).
  assert (Hplain := rendered_options_plain sorted).
  split; [exact Hbuilt|].
  split; [apply find_select_control; exact Hplain|].
  split; [apply options_plain; exact Hplain|].
  split; [rewrite length_map; symmetry; apply Permutation_length; exact Hperm|].
  clear - Hsorted. induction Hsorted as [|p sorted _ IH Hall]; [constructor|].
  cbn [map]. constructor; [exact IH|].
  rewrite Forall_map. revert Hall. apply Forall_impl. intros q Hpq.
  rewrite !shown_key_rendered. unfold pair_le in Hpq.
  rewrite sort_le_iff in Hpq. exact Hpq.
Qed.

(** Ten comes before nine. *)
Example createSelectDropdown_nine_ten :
  exists el sel,
    createSelectDropdown (criteria_of (VStr "level"))
      (choice_list [(VPrim (VNum 9), VPrim (VStr "Nine"));
                    (VPrim (VNum 10), VPrim (VStr "Ten"))]) = Ok el /\
    find "select" el = [sel] /\
    shown (options sel) = [("", "Select"); ("10", "Ten"); ("9", "Nine")].
Proof. eexists _, _. repeat split; reflexivity. Qed.

Section SortedUnique.

Context {A : Type} (le : A -> A -> Prop).

(** Two sorted arrangements of the same items are the same list, where
    the order tells all items apart. *)
Lemma sorted_perm_unique (l1 : list A) :
  forall l2,
    StronglySorted le l1 -> StronglySorted le l2 -> Permutation l1 l2 ->
    (forall x y, In x l1 -> In y l1 -> le x y -> le y x -> x = y) ->
    l1 = l2.
Proof.
  induction l1 as [|x l1 IH]; intros l2 Hs1 Hs2 Hperm Hanti.
  - apply Permutation_nil in Hperm. congruence.
  - destruct l2 as [|y l2].
    { apply Permutation_sym, Permutation_nil in Hperm. discriminate Hperm. }
    inversion Hs1 as [|? ? Hs1' Hx]; subst.
    inversion Hs2 as [|? ? Hs2' Hy]; subst.
    assert (Hyx : In y (x :: l1))
      by (apply (Permutation_in _ (Permutation_sym Hperm)); left; reflexivity).
    assert (Hxy : In x (y :: l2))
      by (apply (Permutation_in _ Hperm); left; reflexivity).
    assert (Heq : x = y).
    { destruct Hyx as [Heq | Hyx]; [exact Heq|].
      destruct Hxy as [Heq | Hxy]; [symmetry; exact Heq|].
      rewrite Forall_forall in Hx, Hy.
      apply Hanti; [left; reflexivity | right; exact Hyx | auto | auto]. }
    subst y. f_equal. apply IH; try assumption.
    + apply (Permutation_cons_inv Hperm).
    + intros a b Ha Hb. apply Hanti; right; assumption.
Qed.

End SortedUnique.

Lemma NoDup_map_eq {A B : Type} (f : A -> B) (l : list A) :
  NoDup (map f l) ->
  forall x y, In x l -> In y l -> f x = f y -> x = y.
Proof.
  induction l as [|a l IH]; intros Hnodup x y Hx Hy Heq; [destruct Hx|].
  cbn [map] in Hnodup. inversion Hnodup as [|? ? Hnotin Hrest]; subst.
  destruct Hx as [<- | Hx], Hy as [<- | Hy].
  - reflexivity.
  - exfalso. apply Hnotin. rewrite Heq. apply in_map. exact Hy.
  - exfalso. apply Hnotin. rewrite <- Heq. apply in_map. exact Hx.
  - apply IH; assumption.
Qed.

Lemma sort_le_antisym_key (x y : value) :
  sort_le x y = true -> sort_le y x = true ->
  x = y \/ ToString x = ToString y.
Proof.
  rewrite !sort_le_iff, (SortCompare_antisym x y).
  destruct (SortCompare x y) eqn:Hxy; cbn [CompOpp]; try congruence.
  intros _ _. unfold SortCompare in Hxy.
  destruct x as [[| | | |]|], y as [[| | | |]|];
    try discriminate Hxy; try (left; reflexivity);
    right; apply OrderedTypeEx.String_as_OT.cmp_eq; exact Hxy.
Qed.

(** X10: the order in which the choices are listed does not matter: two
    choice sets with the same items, no two of which have the same
    string form, give the same dropdown (or both throw). *)
Theorem createSelectDropdown_order_independent
  (that : criteria) (items items' : list value) :
  Permutation items items' ->
  NoDup (map ToString items) ->
  createSelectDropdown that (VArr items) = createSelectDropdown that (VArr items').
Proof.
  intros Hperm Hnodup. rewrite !createSelectDropdown_eq. cbn [Array_from bind].
  replace (sort items') with (sort items); [reflexivity|].
  apply (sorted_perm_unique (fun a b => sort_le a b = true));
    try apply sort_strongly_sorted.
  - rewrite <- (sort_perm items), <- (sort_perm items'). exact Hperm.
  - intros x y Hx Hy Hxy Hyx.
    apply (Permutation_in _ (Permutation_sym (sort_perm items))) in Hx, Hy.
    destruct (sort_le_antisym_key x y Hxy Hyx) as [Heq | Hkey]; [exact Heq|].
    exact (NoDup_map_eq ToString items Hnodup x y Hx Hy Hkey).
Qed.

Lemma createSelectDropdown_order_independent_witness :
  createSelectDropdown (criteria_of (VStr "status")) status_choices =
  createSelectDropdown (criteria_of (VStr "status"))
    (VArr [VArr [VPrim (VStr "0"); VPrim (VStr "Inactive")];
           VArr [VPrim (VStr "1"); VPrim (VStr "Active")]]).
Proof.
  apply (createSelectDropdown_order_independent (criteria_of (VStr "status"))
           [VArr [VPrim (VStr "1"); VPrim (VStr "Active")];
            VArr [VPrim (VStr "0"); VPrim (VStr "Inactive")]]
           [VArr [VPrim (VStr "0"); VPrim (VStr "Inactive")];
            VArr [VPrim (VStr "1"); VPrim (VStr "Active")]]).
  - apply perm_swap.
  - repeat constructor; cbn; intuition discriminate.
Defined.

(* ===================================================================== *)
(** * Further properties: the array conditions on their control *)
(* ===================================================================== *)

(** The value read from a control once the user has picked an option. *)
Lemma val_after_pick (that : criteria) (ls : list listener)
  (children : list node) (picks : list nat) (i : nat) (o : node) :
  Forall plain_option children ->
  existsb is_selected children = true ->
  nth_error children i = Some o ->
  val (find "select"
         (map (user_pick i) (after_picks picks (control that ls children))))
  = VPrim (VStr (option_value o)).
Proof.
  intros Hplain Hsel Hopt.
  destruct (after_picks_control that ls picks children Hplain Hsel)
    as (children' & -> & Hplain' & Hshown & _).
  assert (Hlen : i < List.length children').
  { rewrite (shown_length _ _ Hshown). apply nth_error_Some. congruence. }
  rewrite user_pick_control by exact Hplain'.
  apply Nat.ltb_lt in Hlen. rewrite Hlen. cbv iota. apply Nat.ltb_lt in Hlen.
  destruct (select_nth_plain children' Hplain' i) as [Hplain'' Hshown''].
  destruct (val_control that ls (select_nth i children') i Hplain''
              (select_nth_index children' Hplain' i Hlen))
    as (o1 & Ho1 & _ & Hval).
  destruct (nth_error_shown _ children _ _ (eq_trans Hshown'' Hshown) Ho1)
    as (o2 & Ho2 & Hvalue).
  rewrite Hopt in Ho2. injection Ho2 as <-.
  rewrite Hval, <- Hvalue. reflexivity.
Qed.

(** X11: a control fresh from the [init] of an array condition has the
    sentinel selected: [inputValue] gives the empty string and
    [isInputValid] false.  The [init] leaves the table's listeners and the
    trace as they were, and the wrapper carries exactly one listener, the
    change listener that calls [fn(that, this)]. *)
Theorem array_init_initial_state
  (fields_config : list FieldConfig) (key : string) (d : descriptor)
  (that : criteria) (fn : callback) (w w' : world) (el : jq) (rest : list arg) :
  In (key, d) (array_value_conditions fields_config) ->
  invoke (init d) (fun m => m that fn w) = Ok (RetControl el, w') ->
  w' = w /\
  (exists wrapper,
      el = [wrapper] /\
      listeners_of wrapper =
        [{| on_type := "change"; on_fn := fn; on_that := that |}]) /\
  invoke (inputValue d) (fun m => m (ArgControls [el] :: rest))
    = Ok (VPrim (VStr "")) /\
  invoke (isInputValid d) (fun m => m (ArgControls [el] :: rest))
    = Ok (VPrim (VBool false)).
Proof.
  intros Hd Hinit.
  destruct (array_init_control _ _ _ _ _ _ _ _ Hd Hinit) as (pairs & -> & ->).
  split; [reflexivity|]. split; [eexists; split; reflexivity|].
  destruct (val_control that
              [{| on_type := "change"; on_fn := fn; on_that := that |}]
              (selected_sentinel :: map rendered_option pairs) 0
              (rendered_options_plain pairs) eq_refl)
    as (o & Ho & _ & Hval).
  injection Ho as <-.
  destruct (array_methods fields_config key d
              (ArgControls [control that
                 [{| on_type := "change"; on_fn := fn; on_that := that |}]
                 (selected_sentinel :: map rendered_option pairs)] :: rest) Hd)
    as [-> ->].
  cbn [parameter nth jQuery_first bind]. rewrite Hval. split; reflexivity.
Qed.

Lemma array_init_initial_state_witness :
  invoke (inputValue (array.contains status_fields))
         (fun m => m [ArgControls
            [control (criteria_of (VStr "status"))
               [{| on_type := "change"; on_fn := updateListener;
                   on_that := criteria_of (VStr "status") |}]
               [selected_sentinel;
                rendered_option (VPrim (VStr "0"), VPrim (VStr "Inactive"));
                rendered_option (VPrim (VStr "1"), VPrim (VStr "Active"))]]])
    = Ok (VPrim (VStr "")).
Proof.
  apply (array_init_initial_state status_fields
           "searchBuilder.conditions.array.contains"
           (array.contains status_fields)
           (criteria_of (VStr "status")) updateListener empty_world empty_world).
  - simpl. auto.
  - reflexivity.
Defined.

(** X12: on the control of an array condition, whatever the user has
    picked, [inputValue] returns a string and never throws, and
    [isInputValid] is true exactly when that string is not empty. *)
Theorem array_valid_iff_value_nonempty
  (fields_config : list FieldConfig) (key : string) (d : descriptor)
  (that : criteria) (fn : callback) (w w' : world) (el : jq)
  (picks : list nat) (rest : list arg) :
  In (key, d) (array_value_conditions fields_config) ->
  invoke (init d) (fun m => m that fn w) = Ok (RetControl el, w') ->
  exists s : string,
    invoke (inputValue d)
           (fun m => m (ArgControls [after_picks picks el] :: rest))
      = Ok (VPrim (VStr s)) /\
    invoke (isInputValid d)
           (fun m => m (ArgControls [after_picks picks el] :: rest))
      = Ok (VPrim (VBool (negb (String.eqb s "")))).
Proof.
  intros Hd Hinit.
  destruct (array_init_control _ _ _ _ _ _ _ _ Hd Hinit) as (pairs & _ & ->).
  destruct (after_picks_control that
              [{| on_type := "change"; on_fn := fn; on_that := that |}] picks
              (selected_sentinel :: map rendered_option pairs)
              (rendered_options_plain pairs) eq_refl)
    as (children & -> & Hplain & _ & Hsel).
  destruct (existsb_index_where is_selected children Hsel) as [i Hi].
  destruct (val_control that
              [{| on_type := "change"; on_fn := fn; on_that := that |}]
              children i Hplain Hi) as (o & _ & _ & Hval).
  exists (option_value o).
  destruct (array_methods fields_config key d
              (ArgControls [control that
                 [{| on_type := "change"; on_fn := fn; on_that := that |}]
                 children] :: rest) Hd) as [-> ->].
  cbn [parameter nth jQuery_first bind]. rewrite Hval.
  cbn [length_of bind]. rewrite greater_than_length. split; reflexivity.
Qed.

Lemma array_valid_iff_value_nonempty_witness :
  exists s : string,
    invoke (inputValue (array.equal status_fields))
           (fun m => m [ArgControls
              [after_picks [1; 2]
                 (control (criteria_of (VStr "status"))
                    [{| on_type := "change"; on_fn := updateListener;
                        on_that := criteria_of (VStr "status") |}]
                    [selected_sentinel;
                     rendered_option (VPrim (VStr "0"), VPrim (VStr "Inactive"));
                     rendered_option (VPrim (VStr "1"), VPrim (VStr "Active"))])]])
      = Ok (VPrim (VStr s)) /\
    invoke (isInputValid (array.equal status_fields))
           (fun m => m [ArgControls
              [after_picks [1; 2]
                 (control (criteria_of (VStr "status"))
                    [{| on_type := "change"; on_fn := updateListener;
                        on_that := criteria_of (VStr "status") |}]
                    [selected_sentinel;
                     rendered_option (VPrim (VStr "0"), VPrim (VStr "Inactive"));
                     rendered_option (VPrim (VStr "1"), VPrim (VStr "Active"))])]])
      = Ok (VPrim (VBool (negb (String.eqb s "")))).
Proof.
  apply (array_valid_iff_value_nonempty status_fields
           "searchBuilder.conditions.array.equals" (array.equal status_fields)
           (criteria_of (VStr "status")) updateListener empty_world empty_world).
  - simpl. auto.
  - reflexivity.
Defined.

(** X13: a choice whose value has the empty string form (undefined, null,
    the empty string) gets an option like any other, but picking it never
    makes the row valid. *)
Theorem array_empty_value_never_valid
  (fields_config : list FieldConfig) (key : string) (d : descriptor)
  (that : criteria) (fn : callback) (w : world)
  (pairs : list (value * value)) (v label : value) :
  In (key, d) (array_value_conditions fields_config) ->
  get_field_choices (s_origData that) fields_config = choice_list pairs ->
  In (v, label) pairs ->
  val_string v = "" ->
  exists (el : jq) (sel : node) (i : nat),
    invoke (init d) (fun m => m that fn w) = Ok (RetControl el, w) /\
    find "select" el = [sel] /\
    nth_error (options sel) i = Some (rendered_option (v, label)) /\
    forall (picks : list nat) (rest : list arg),
      invoke (isInputValid d)
             (fun m => m (ArgControls
                            [map (user_pick i) (after_picks picks el)] :: rest))
        = Ok (VPrim (VBool false)).
Proof.
  intros Hd Hchoices Hin Hempty.
  destruct (createSelectDropdown_choice_list that pairs)
    as (sorted & Hperm & _ & _ & Hbuilt).
  set (ls := [{| on_type := "change"; on_fn := fn; on_that := that |}]).
  set (children := selected_sentinel :: map rendered_option sorted).
  assert (Hplain : Forall plain_option children) by apply rendered_options_plain.
  apply (Permutation_in _ Hperm) in Hin.
  destruct (In_nth_error _ _ Hin) as [k Hk].
  assert (Hopt : nth_error children (S k) = Some (rendered_option (v, label))).
  { unfold children. cbn [nth_error]. apply map_nth_error. exact Hk. }
  exists (control that ls children),
         (Element "select" (select_classes that) [] false [] children), (S k).
  split.
  { unfold array_value_conditions in Hd. cbn [In] in Hd.
    destruct Hd as [H | [H | [H | [H | []]]]]; injection H as <- <-;
      cbn [invoke init array.equal array.notEqual array.contains array.notContains];
      rewrite Hchoices, Hbuilt; reflexivity. }
  split; [apply find_select_control; exact Hplain|].
  split; [rewrite (options_plain _ _ _ _ _ Hplain); exact Hopt|].
  intros picks rest.
  rewrite (proj2 (array_methods fields_config key d _ Hd)).
  cbn [parameter nth jQuery_first bind].
  rewrite (val_after_pick that ls children picks (S k) _ Hplain eq_refl Hopt).
  cbn [length_of bind]. rewrite greater_than_length.
  change (option_value (rendered_option (v, label))) with (val_string v).
  rewrite Hempty. reflexivity.
Qed.

Lemma array_empty_value_never_valid_witness :
  exists (el : jq) (sel : node) (i : nat),
    invoke (init (array.equal
                    [{| name := VStr "owner";
                        choices := choice_list [(VPrim VNull, VPrim (VStr "Nobody"))] |}]))
           (fun m => m (criteria_of (VStr "owner")) updateListener empty_world)
      = Ok (RetControl el, empty_world) /\
    find "select" el = [sel] /\
    nth_error (options sel) i
      = Some (rendered_option (VPrim VNull, VPrim (VStr "Nobody"))) /\
    forall (picks : list nat) (rest : list arg),
      invoke (isInputValid
                (array.equal
                   [{| name := VStr "owner";
                       choices := choice_list [(VPrim VNull, VPrim (VStr "Nobody"))] |}]))
             (fun m => m (ArgControls
                            [map (user_pick i) (after_picks picks el)] :: rest))
        = Ok (VPrim (VBool false)).
Proof.
  apply (array_empty_value_never_valid
           [{| name := VStr "owner";
               choices := choice_list [(VPrim VNull, VPrim (VStr "Nobody"))] |}]
           "searchBuilder.conditions.array.equals" _
           (criteria_of (VStr "owner")) updateListener empty_world
           [(VPrim VNull, VPrim (VStr "Nobody"))] (VPrim VNull) (VPrim (VStr "Nobody"))).
  - simpl. auto.
  - reflexivity.
  - simpl. auto.
  - reflexivity.
Defined.

(** X14: without a control the two readers of an array condition part
    ways: called with no argument both throw, but on an empty array of
    controls [inputValue] returns undefined while [isInputValid] throws,
    there being no value to take the length of. *)
Theorem array_readers_without_control
  (fields_config : list FieldConfig) (key : string) (d : descriptor)
  (rest : list arg) :
  In (key, d) (array_value_conditions fields_config) ->
  invoke (inputValue d) (fun m => m []) = Throw TypeError /\
  invoke (isInputValid d) (fun m => m []) = Throw TypeError /\
  invoke (inputValue d) (fun m => m (ArgControls [] :: rest))
    = Ok (VPrim VUndefined) /\
  invoke (isInputValid d) (fun m => m (ArgControls [] :: rest))
    = Throw TypeError.
Proof.
  intros Hd.
  rewrite !(proj1 (array_methods fields_config key d _ Hd)).
  rewrite !(proj2 (array_methods fields_config key d _ Hd)).
  repeat split; reflexivity.
Qed.

Lemma array_readers_without_control_witness :
  invoke (inputValue (array.notEqual status_fields)) (fun m => m []) = Throw TypeError /\
  invoke (isInputValid (array.notEqual status_fields)) (fun m => m []) = Throw TypeError /\
  invoke (inputValue (array.notEqual status_fields)) (fun m => m [ArgControls []])
    = Ok (VPrim VUndefined) /\
  invoke (isInputValid (array.notEqual status_fields)) (fun m => m [ArgControls []])
    = Throw TypeError.
Proof.
  apply (array_readers_without_control status_fields
           "searchBuilder.conditions.array.not" (array.notEqual status_fields) []).
  simpl. auto.
Defined.

(* ===================================================================== *)
(** * Further properties: conditions without input and the draw event *)
(* ===================================================================== *)

Lemma init_each_listeners (fn : callback) (rows : list (string * criteria)) :
  forall w,
    init_each rows fn w =
    Ok {| dt_listeners :=
            dt_listeners w ++
            map (fun r => {| events := "draw.dtsb"; once := true;
                             run := RedrawLogic (snd r) |}) rows;
          trace := trace w |}.
Proof.
  induction rows as [|[key that] rows IH]; intros w.
  - cbn [init_each map]. rewrite app_nil_r. destruct w; reflexivity.
  - cbn [init_each invoke init noInputCondition bind snd]. rewrite IH.
    unfold dt_one. cbn [dt_listeners trace map snd].
    rewrite <- app_assoc. reflexivity.
Qed.

Lemma fire_draw_rows (rows : list (string * criteria)) (ls : list dt_listener)
  (tr : list host_call) :
  fire "draw"
       {| dt_listeners :=
            ls ++ map (fun r => {| events := "draw.dtsb"; once := true;
                                   run := RedrawLogic (snd r) |}) rows;
          trace := tr |} =
  {| dt_listeners := dt_listeners (fire "draw" {| dt_listeners := ls; trace := tr |});
     trace := trace (fire "draw" {| dt_listeners := ls; trace := tr |}) ++
              map (fun r => Trigger (s_topGroup (snd r)) "dtsb-redrawLogic") rows |}.
Proof.
  unfold fire. cbn [dt_listeners trace]. rewrite !filter_app, flat_map_app.
  assert (Hgone : filter (fun l => negb (listens "draw" l && once l))
                         (map (fun r => {| events := "draw.dtsb"; once := true;
                                           run := RedrawLogic (snd r) |}) rows) = []).
  { induction rows as [|r rows IH]; [reflexivity | exact IH]. }
  assert (Hrun : flat_map (fun l => run_handler (run l))
                   (filter (listens "draw")
                      (map (fun r => {| events := "draw.dtsb"; once := true;
                                        run := RedrawLogic (snd r) |}) rows)) =
                 map (fun r => Trigger (s_topGroup (snd r)) "dtsb-redrawLogic") rows).
  { clear Hgone. induction rows as [|r rows IH]; [reflexivity|].
    cbn [map filter]. change (listens "draw" _) with true. cbv iota.
    cbn [flat_map run run_handler app]. rewrite IH. reflexivity. }
  rewrite Hgone, Hrun, app_nil_r, app_assoc. reflexivity.
Qed.

Lemma redraws_rows (topGroup : string) (rows : list (string * criteria)) :
  redraws topGroup
    (map (fun r => Trigger (s_topGroup (snd r)) "dtsb-redrawLogic") rows)
  = rows_of topGroup rows.
Proof.
  unfold redraws, rows_of. induction rows as [|r rows IH]; [reflexivity|].
  cbn [map filter is_redraw]. rewrite String.eqb_refl, andb_true_r.
  destruct (String.eqb (s_topGroup (snd r)) topGroup); cbn [List.length];
    rewrite IH; reflexivity.
Qed.

(** X15: the [init]s of several rows without input add up: nothing is
    triggered by the [init]s themselves, the first draw that follows
    triggers the recompute logic once for each row, and later draws
    trigger nothing more. *)
Theorem noInputCondition_inits_add_up
  (rows : list (string * criteria)) (fn : callback) (w : world)
  (topGroup : string) :
  exists w' : world,
    init_each rows fn w = Ok w' /\
    trace w' = trace w /\
    forall n : nat,
      redraws topGroup (trace (fire_times n "draw" w')) =
      redraws topGroup (trace (fire_times n "draw" w))
      + match n with O => 0 | S _ => rows_of topGroup rows end.
Proof.
  eexists. split; [apply init_each_listeners|]. split; [reflexivity|].
  intros [|n]; [cbn [fire_times trace]; lia|].
  cbn [fire_times]. rewrite fire_draw_rows.
  replace {| dt_listeners := dt_listeners w; trace := trace w |} with w
    by (destruct w; reflexivity).
  destruct (fire_times_listeners "draw" n
              {| dt_listeners := dt_listeners (fire "draw" w);
                 trace := trace (fire "draw" w) ++
                          map (fun r => Trigger (s_topGroup (snd r)) "dtsb-redrawLogic")
                              rows |}
              (fire "draw" w) eq_refl) as (added & H1 & H2 & _).
  rewrite H1, H2. cbn [trace]. rewrite !redraws_app, redraws_rows. lia.
Qed.

(** X16: the listener waits for a draw: an event of any other type
    neither runs nor removes it, so that the world after [init] and such
    an event is the world after the event and [init]. *)
Theorem noInputCondition_init_waits_for_draw
  (translationKey : string) (that : criteria) (fn : callback) (w : world)
  (type : string) :
  type <> "draw" ->
  exists w1 w2 : world,
    invoke (init (noInputCondition translationKey)) (fun m => m that fn w)
      = Ok (RetUndefined, w1) /\
    invoke (init (noInputCondition translationKey))
           (fun m => m that fn (fire type w))
      = Ok (RetUndefined, w2) /\
    fire type w1 = w2 /\
    trace (fire type w1) = trace (fire type w).
Proof.
  intros Htype. eexists _, _. split; [reflexivity|]. split; [reflexivity|].
  assert (Hdeaf : listens type {| events := "draw.dtsb"; once := true;
                                   run := RedrawLogic that |} = false).
  { unfold listens. cbn [events]. apply String.eqb_neq. cbn. congruence. }
  unfold fire, dt_one. cbn [dt_listeners trace].
  rewrite !filter_app. cbn [filter]. rewrite Hdeaf. cbn [andb negb flat_map].
  rewrite !app_nil_r. split; reflexivity.
Qed.

Lemma noInputCondition_init_waits_for_draw_witness :
  exists w1 w2 : world,
    invoke (init (noInputCondition "starlette-admin.conditions.empty"))
           (fun m => m (criteria_of (VStr "status")) updateListener empty_world)
      = Ok (RetUndefined, w1) /\
    invoke (init (noInputCondition "starlette-admin.conditions.empty"))
           (fun m => m (criteria_of (VStr "status")) updateListener
                       (fire "search" empty_world))
      = Ok (RetUndefined, w2) /\
    fire "search" w1 = w2 /\
    trace (fire "search" w1) = trace (fire "search" empty_world).
Proof.
  apply (noInputCondition_init_waits_for_draw
           "starlette-admin.conditions.empty" (criteria_of (VStr "status"))
           updateListener empty_world "search").
  discriminate.
Defined.
